(** * Reddit-Mention-Tracker: the mention-collection core of [reddit_scraper.py]

    A shallow embedding of [RedditScraper]: the normaliser
    [_extract_post_data], the score-text parser [_parse_score], the three
    retrieval strategies and the aggregator [search_mentions], followed by
    the properties of the specification that concern them.

    Python objects are untyped, and the scraper never coerces what the
    platform sends, so the embedding works on a universe of Python values
    ([value]) and keeps the exceptions of the interpreter explicit
    ([result]). The network, the browser, the clock and the random
    generator are gathered in a record ([world]) that a run consults. *)

From Stdlib Require Import ZArith QArith List String Ascii Bool Lia.
From Stdlib Require Import Sorted Permutation SpecFloat DecimalString.
From Stdlib Require OrderedTypeEx.
Import ListNotations.

Local Set Warnings "-register-all".
Local Open Scope string_scope.
Local Open Scope Z_scope.

(* ================================================================= *)
(** ** Exceptions and results *)

(** The classes of [Exception] that the modelled code can meet. All of them
    derive from [Exception], so every [except Exception] and every bare
    [except] of the source catches them, and [str] formats them for the
    log. The errors of the network, of the decoder and of the browser are
    of this kind; an interrupt of the process by a signal is outside the
    model. What else the caller's callback can raise is [escape], below. *)
Inductive exn : Type :=
| TypeError
| KeyError
| AttributeError
| ValueError
| OverflowError
| RequestException      (* requests: connection, timeout, HTTP status, JSON decoding *)
| WebDriverException    (* selenium: session creation, navigation, timeout, lookup *)
| CallbackError.        (* an Exception raised by the caller's progress callback *)

Inductive result (A : Type) : Type :=
| Ok (a : A)
| Raise (e : exn).
Arguments Ok {A} a.
Arguments Raise {A} e.

Definition rbind {A B} (m : result A) (k : A -> result B) : result B :=
  match m with
  | Ok a => k a
  | Raise e => Raise e
  end.

Declare Scope py_scope.
Delimit Scope py_scope with py.
Notation "x <- m ;; k" := (rbind m (fun x => k))
  (at level 61, m at next level, right associativity) : py_scope.

(** Whether a computation returns. *)
Definition is_ok {A} (m : result A) : bool :=
  match m with Ok _ => true | Raise _ => false end.

(* ================================================================= *)
(** ** Python values *)

(** What [response.json()] builds, and what the post dictionaries hold:
    [None], booleans, integers, floats, strings, lists and dictionaries
    with string keys. A finite float is represented by the rational it
    denotes: every finite binary64 value is one, and Python compares
    integers and floats by their exact values. The decoder also accepts
    the tokens [Infinity], [-Infinity] and [NaN]: they give the two
    infinities and the decoder's NaN, which is one object for every
    occurrence of the token. A dictionary is the list of its items in
    insertion order, each key occurring once. *)
Inductive value : Type :=
| VNone
| VBool (b : bool)
| VInt (n : Z)
| VFloat (q : Q)
| VInf (negative : bool)
| VNaN
| VStr (s : string)
| VList (l : list value)
| VDict (d : list (string * value)).

Definition dict := list (string * value).

Fixpoint lookup (k : string) (d : dict) : option value :=
  match d with
  | [] => None
  | (k', v) :: d' => if String.eqb k k' then Some v else lookup k d'
  end.

(** [d.get(k, default)] and [d.get(k)]. *)
Definition get_default (d : dict) (k : string) (default : value) : value :=
  match lookup k d with
  | Some v => v
  | None => default
  end.

Definition get (d : dict) (k : string) : value := get_default d k VNone.

(** Numbers: [bool] is a subclass of [int], and the three numeric types
    compare with each other by value. *)
Inductive number : Type :=
| Finite (q : Q)
| Infinite (negative : bool)
| NotANumber.

Definition as_number (v : value) : option number :=
  match v with
  | VBool b => Some (Finite (if b then 1%Q else 0%Q))
  | VInt n => Some (Finite (inject_Z n))
  | VFloat q => Some (Finite q)
  | VInf negative => Some (Infinite negative)
  | VNaN => Some NotANumber
  | _ => None
  end.

Definition is_nan (v : value) : bool :=
  match v with
  | VNaN => true
  | _ => false
  end.

Definition Qltb (x y : Q) : bool := negb (Qle_bool y x).

(** [x < y] between numbers: false as soon as one of them is NaN. *)
Definition number_ltb (x y : number) : bool :=
  match x, y with
  | Finite a, Finite b => Qltb a b
  | Finite _, Infinite negative => negb negative
  | Infinite negative, Finite _ => negative
  | Infinite n, Infinite m => n && negb m
  | _, _ => false
  end.

(** Two numbers are the same object or equal: NaN is not equal to
    itself, and the NaN of the decoder is the same object as itself. *)
Definition number_same (x y : number) : bool :=
  match x, y with
  | Finite a, Finite b => Qeq_bool a b
  | Infinite n, Infinite m => Bool.eqb n m
  | NotANumber, NotANumber => true
  | _, _ => false
  end.

(** [a is b or a == b], the test of set membership and of the comparison
    of lists and dictionaries; the code has no other equality. *)
Fixpoint py_eq (a b : value) {struct a} : bool :=
  match as_number a, as_number b with
  | Some x, Some y => number_same x y
  | _, _ =>
    match a, b with
    | VNone, VNone => true
    | VStr s, VStr t => String.eqb s t
    | VList xs, VList ys =>
      (fix all2 (xs ys : list value) {struct xs} : bool :=
         match xs, ys with
         | [], [] => true
         | x :: xs', y :: ys' => py_eq x y && all2 xs' ys'
         | _, _ => false
         end) xs ys
    | VDict d, VDict e =>
      Nat.eqb (List.length d) (List.length e) &&
      (fix incl (d : dict) {struct d} : bool :=
         match d with
         | [] => true
         | (k, v) :: d' =>
           match lookup k e with
           | Some w => py_eq v w && incl d'
           | None => false
           end
         end) d
    | _, _ => false
    end
  end.

(** [a < b]: defined between numbers (false when one of them is NaN),
    between strings (by code points) and between lists (lexicographic, the
    first pair of unequal elements decides); every other pair raises
    [TypeError]. *)
Fixpoint py_lt (a b : value) {struct a} : result bool :=
  match as_number a, as_number b with
  | Some x, Some y => Ok (number_ltb x y)
  | _, _ =>
    match a, b with
    | VStr s, VStr t => Ok (String.ltb s t)
    | VList xs, VList ys =>
      (fix lex (xs ys : list value) {struct xs} : result bool :=
         match xs, ys with
         | [], [] => Ok false
         | [], _ :: _ => Ok true
         | _ :: _, [] => Ok false
         | x :: xs', y :: ys' => if py_eq x y then lex xs' ys' else py_lt x y
         end) xs ys
    | _, _ => Raise TypeError
    end
  end.

(** [hash(v)] succeeds except on lists and dictionaries. *)
Definition hashable (v : value) : bool :=
  match v with
  | VList _ | VDict _ => false
  | _ => true
  end.

(* ================================================================= *)
(** ** Text *)

(** Texts are strings of ASCII characters: [str.lower], [float] and [int]
    are modelled on that alphabet. *)
Definition code (c : ascii) : N := N_of_ascii c.

Definition is_digit (c : ascii) : bool := ((48 <=? code c) && (code c <=? 57))%N.

(** The whitespace that [float] and [int] skip: tab to carriage return,
    and the space. *)
Definition is_space (c : ascii) : bool :=
  (((9 <=? code c) && (code c <=? 13)) || (code c =? 32))%N.

Definition lower_char (c : ascii) : ascii :=
  if ((65 <=? code c) && (code c <=? 90))%N then ascii_of_N (code c + 32) else c.

(** [s.lower()]. *)
Fixpoint lower (s : string) : string :=
  match s with
  | EmptyString => EmptyString
  | String c s' => String (lower_char c) (lower s')
  end.

(** [s.replace(c, '')] for a one-character [c]. *)
Fixpoint remove_char (c : ascii) (s : string) : string :=
  match s with
  | EmptyString => EmptyString
  | String a s' => if Ascii.eqb a c then remove_char c s' else String a (remove_char c s')
  end.

(** [c in s] for a one-character [c]. *)
Fixpoint contains_char (c : ascii) (s : string) : bool :=
  match s with
  | EmptyString => false
  | String a s' => Ascii.eqb a c || contains_char c s'
  end.

(** [needle in s] between strings. *)
Definition contains (needle s : string) : bool :=
  match String.index 0 needle s with
  | Some _ => true
  | None => false
  end.

(** [s.replace('r/', '')]: occurrences are removed from left to right. *)
Fixpoint remove_r_slash (s : string) : string :=
  match s with
  | String "r" (String "/" s') => remove_r_slash s'
  | String a s' => String a (remove_r_slash s')
  | EmptyString => EmptyString
  end.

Fixpoint drop_spaces (l : list ascii) : list ascii :=
  match l with
  | c :: l' => if is_space c then drop_spaces l' else l
  | [] => []
  end.

(** Leading and trailing whitespace is ignored by [float] and [int]. *)
Definition strip (l : list ascii) : list ascii :=
  rev (drop_spaces (rev (drop_spaces l))).

(** Underscores in a numeric literal: each must stand between two digits.
    The result is the literal without them. *)
Fixpoint drop_underscores (prev : option ascii) (l : list ascii) : option (list ascii) :=
  match l with
  | [] =>
    match prev with
    | Some "_"%char => None
    | _ => Some []
    end
  | c :: l' =>
    if Ascii.eqb c "_" then
      match prev with
      | Some p => if is_digit p then drop_underscores (Some c) l' else None
      | None => None
      end
    else
      match prev with
      | Some "_"%char =>
        if is_digit c then option_map (cons c) (drop_underscores (Some c) l') else None
      | _ => option_map (cons c) (drop_underscores (Some c) l')
      end
  end.

Definition take_sign (l : list ascii) : bool * list ascii :=
  match l with
  | "-"%char :: l' => (true, l')
  | "+"%char :: l' => (false, l')
  | _ => (false, l)
  end.

Fixpoint span_digits (l : list ascii) : list ascii * list ascii :=
  match l with
  | c :: l' =>
    if is_digit c then let (d, r) := span_digits l' in (c :: d, r) else ([], l)
  | [] => ([], [])
  end.

Definition digit_value (c : ascii) : Z := Z.of_N (code c) - 48.

(** The number written by a run of decimal digits. *)
Definition digits_value (l : list ascii) : Z :=
  fold_left (fun acc c => 10 * acc + digit_value c) l 0.

(** The most digits that [int] converts from a string
    ([sys.get_int_max_str_digits()], by default). *)
Definition max_str_digits : Z := 4300.

(** [int(s)] for a string, base ten: optional sign, then digits, no more
    of them than [max_str_digits]. *)
Definition py_int (s : string) : result Z :=
  let (neg, body) := take_sign (strip (list_ascii_of_string s)) in
  match drop_underscores None body with
  | Some ((_ :: _) as ds) =>
    if forallb is_digit ds && (Z.of_nat (List.length ds) <=? max_str_digits)
    then Ok (if neg then - digits_value ds else digits_value ds)
    else Raise ValueError
  | _ => Raise ValueError
  end.

(* ================================================================= *)
(** ** Floats of the score parser *)

(** [_parse_score] computes with binary64 floats. They are the
    [spec_float]s of precision 53 and exponent bound 1024, with the
    rounding to nearest even of the standard library's specification. *)
Definition prec : Z := 53.
Definition emax : Z := 1024.
Definition float64 := spec_float.

(** The float nearest to [m * 10^e10], as [float] computes it from a
    decimal literal: one rounding of the exact value. *)
Definition float_of_decimal (neg : bool) (m : Z) (e10 : Z) : float64 :=
  match m with
  | Zpos p =>
    if 0 <=? e10
    then binary_normalize prec emax ((if neg then -1 else 1) * (m * 10 ^ e10)) 0 false
    else SFdiv prec emax (S754_finite neg p 0)
                         (S754_finite false (Z.to_pos (10 ^ (- e10))) 0)
  | _ => S754_zero neg
  end.

(** The exponent part of a literal: empty, or [e], an optional sign and
    digits up to the end. *)
Definition parse_exponent (l : list ascii) : option Z :=
  match l with
  | [] => Some 0
  | c :: l' =>
    if Ascii.eqb c "e" || Ascii.eqb c "E" then
      let (neg, r) := take_sign l' in
      match span_digits r with
      | ((_ :: _) as ds, []) => Some (if neg then - digits_value ds else digits_value ds)
      | _ => None
      end
    else None
  end.

(** [float(s)] for a string: [inf], [infinity], [nan] in any case, or a
    decimal literal with at least one digit in its mantissa. *)
Definition py_float (s : string) : result float64 :=
  match drop_underscores None (strip (list_ascii_of_string s)) with
  | None => Raise ValueError
  | Some l =>
    let (neg, body) := take_sign l in
    let word := lower (string_of_list_ascii body) in
    if String.eqb word "inf" || String.eqb word "infinity" then Ok (S754_infinity neg)
    else if String.eqb word "nan" then Ok S754_nan
    else
      let (ip, r1) := span_digits body in
      let (fp, r2) :=
        match r1 with
        | "."%char :: r => span_digits r
        | _ => ([], r1)
        end in
      match (ip ++ fp)%list with
      | [] => Raise ValueError
      | ds =>
        match parse_exponent r2 with
        | Some e => Ok (float_of_decimal neg (digits_value ds) (e - Z.of_nat (List.length fp)))
        | None => Raise ValueError
        end
      end
  end.

(** [x * 1000]: the integer operand is converted to the float 1000.0. *)
Definition float_times_1000 (x : float64) : float64 :=
  SFmul prec emax x (binary_normalize prec emax 1000 0 false).

(** [int(x)] for a float: truncation towards zero; infinities and NaN
    have no integer value. *)
Definition int_of_float (x : float64) : result Z :=
  match x with
  | S754_zero _ => Ok 0
  | S754_finite neg m e =>
    let mag := if 0 <=? e then Zpos m * 2 ^ e else Zpos m / 2 ^ (- e) in
    Ok (if neg then - mag else mag)
  | S754_infinity _ => Raise OverflowError
  | S754_nan => Raise ValueError
  end.

(* ================================================================= *)
(** ** The text parsers of the browser strategy *)

(** The body of [_parse_score], before its [except]. *)
Definition parse_score_body (score_text : string) : result Z :=
  let score_text := remove_char "," (lower score_text) in
  if contains_char "k" score_text then
    (x <- py_float (remove_char "k" score_text) ;;
     int_of_float (float_times_1000 x))%py
  else py_int score_text.

(** [_parse_score]: the bare [except] turns every failure into 0. *)
Definition _parse_score (score_text : string) : result Z :=
  match parse_score_body score_text with
  | Ok n => Ok n
  | Raise _ => Ok 0
  end.

Fixpoint drop_non_digits (l : list ascii) : list ascii :=
  match l with
  | c :: l' => if is_digit c then l else drop_non_digits l'
  | [] => []
  end.

(** [_parse_comment_count]: [int] of the first run of digits of the text
    without its commas, or 0 when it has none; the bare [except] turns a
    failure of [int] into 0. *)
Definition _parse_comment_count (comment_text : string) : result Z :=
  match fst (span_digits (drop_non_digits (list_ascii_of_string (remove_char "," comment_text)))) with
  | [] => Ok 0
  | numbers_0 =>
    match py_int (string_of_list_ascii numbers_0) with
    | Ok n => Ok n
    | Raise _ => Ok 0
    end
  end.

(* ================================================================= *)
(** ** Containers *)

(** [needle in c]: key membership for a dictionary, element membership for a
    list, substring for a string. *)
Definition py_contains (needle : string) (c : value) : result bool :=
  match c with
  | VDict d => Ok (match lookup needle d with Some _ => true | None => false end)
  | VList l => Ok (existsb (py_eq (VStr needle)) l)
  | VStr s => Ok (contains needle s)
  | _ => Raise TypeError
  end.

(** [c[key]] for a string [key]. *)
Definition getitem (c : value) (key : string) : result value :=
  match c with
  | VDict d =>
    match lookup key d with
    | Some v => Ok v
    | None => Raise KeyError
    end
  | _ => Raise TypeError
  end.

Definition chars (s : string) : list value :=
  map (fun c => VStr (String c EmptyString)) (list_ascii_of_string s).

(** What [for x in c] runs through. *)
Definition py_iter (c : value) : result (list value) :=
  match c with
  | VList l => Ok l
  | VDict d => Ok (map (fun kv => VStr (fst kv)) d)
  | VStr s => Ok (chars s)
  | _ => Raise TypeError
  end.

(** [l[:n]]: a negative [n] counts from the end. *)
Definition slice_to {A} (l : list A) (n : Z) : list A :=
  if n <? 0 then firstn (Z.to_nat (Z.of_nat (List.length l) + n)) l
  else firstn (Z.to_nat n) l.

(** [x in seen] for a set [seen], kept as the list of its elements: the
    element is hashed first. *)
Definition in_set (x : value) (seen : list value) : result bool :=
  if hashable x then Ok (existsb (py_eq x) seen) else Raise TypeError.

(* ================================================================= *)
(** ** Posts and the outside world *)

(** A post is the dictionary built by one of the two normalisers. *)
Definition post := dict.

(** A post container of the rendered page. Each part is [None] when
    [find_element] raises for its selector; the link's [href] attribute may
    itself be missing. *)
Record element : Type := {
  h3 : option string;
  subreddit_name : option string;
  vote_count : option string;
  comment_count : option string;
  title_link : option (option string)
}.

(** What a run reads from outside the scraper's code. Requests are made at
    most once per run and per argument, so each is a function of its
    arguments. [webdriver.Chrome.quit] swallows its own errors and has no
    entry. *)
Record world : Type := {
  (** [str(v)] for a value that is not a string. *)
  render : value -> string;
  (** [session.get], [raise_for_status] and [response.json] on
      [/search.json], from [q], [sort], [t] and [limit]. *)
  site_search : string -> string -> string -> Z -> result value;
  (** The same on [/r/<subreddit>/search.json], from [q], the subreddit
      and [limit]. *)
  subreddit_search : string -> string -> Z -> result value;
  (** [webdriver.Chrome(options=...)]. *)
  launch_chrome : result unit;
  (** Navigation to the search page of [q], [sort] and [t], the wait for
      its body, the scrolling and [find_elements]. *)
  load_page : string -> string -> string -> result (list element);
  (** [random.randint(100000, 999999)] and [int(time.time())] when the
      container of a given rank is extracted. *)
  randint : nat -> Z;
  clock : nat -> Z
}.

Definition site : string := "https://www.reddit.com".

(** The f-string of the permalink. *)
Definition format_value (w : world) (v : value) : string :=
  match v with
  | VStr s => s
  | _ => render w v
  end.

(** [_extract_post_data]: [dict.get] exists on dictionaries only. *)
Definition _extract_post_data (w : world) (post_data : value) : result post :=
  match post_data with
  | VDict d => Ok
    [ ("id", get_default d "id" (VStr ""));
      ("title", get_default d "title" (VStr ""));
      ("selftext", get_default d "selftext" (VStr ""));
      ("author", get_default d "author" (VStr "[deleted]"));
      ("subreddit", get_default d "subreddit" (VStr ""));
      ("score", get_default d "score" (VInt 0));
      ("upvote_ratio", get_default d "upvote_ratio" (VFloat 0));
      ("num_comments", get_default d "num_comments" (VInt 0));
      ("created_utc", get_default d "created_utc" (VInt 0));
      ("url", get_default d "url" (VStr ""));
      ("permalink", VStr (site ++ format_value w (get_default d "permalink" (VStr ""))));
      ("domain", get_default d "domain" (VStr ""));
      ("is_self", get_default d "is_self" (VBool false)) ]
  | _ => Raise AttributeError
  end.

Definition decimal (n : Z) : string := NilZero.string_of_int (Z.to_int n).

Definition opt_value (o : option string) : value :=
  match o with
  | Some s => VStr s
  | None => VNone
  end.

(** [_extract_browser_post_data] on the container of rank [i]: [None] as
    soon as one lookup raises. *)
Definition _extract_browser_post_data (w : world) (i : nat) (e : element) : option post :=
  match h3 e, subreddit_name e, vote_count e, comment_count e, title_link e with
  | Some title, Some subreddit, Some votes, Some comments, Some href =>
    match _parse_score votes, _parse_comment_count comments with
    | Ok score, Ok num_comments => Some
      [ ("id", VStr ("browser_" ++ decimal (randint w i)));
        ("title", VStr title);
        ("subreddit", VStr (remove_r_slash subreddit));
        ("score", VInt score);
        ("num_comments", VInt num_comments);
        ("permalink", opt_value href);
        ("created_utc", VInt (clock w i));
        ("author", VStr "N/A");
        ("selftext", VStr "");
        ("upvote_ratio", VFloat 0);
        ("url", opt_value href);
        ("domain", VStr "reddit.com");
        ("is_self", VBool true) ]
    | _, _ => None
    end
  | _, _, _, _, _ => None
  end.

(* ================================================================= *)
(** ** The retrieval strategies *)

(** The loop over the children of a listing. An exception leaves the loop
    with the posts appended so far; the caller's [except] then keeps them. *)
Fixpoint extract_children (w : world) (children : list value) (results : list post)
  : list post :=
  match children with
  | [] => results
  | child :: rest =>
    match (post_data <- getitem child "data" ;; _extract_post_data w post_data)%py with
    | Ok p => extract_children w rest (results ++ [p])
    | Raise _ => results
    end
  end.

(** The children of [data['data']['children']] when both keys are there. *)
Definition listing_children (data : value) : result (list value) :=
  (has_data <- py_contains "data" data ;;
   has_children <-
     (if has_data : bool
      then (inner <- getitem data "data" ;; py_contains "children" inner)
      else Ok false) ;;
   if has_children : bool
   then (inner <- getitem data "data" ;;
         children <- getitem inner "children" ;;
         py_iter children)
   else Ok [])%py.

(** What a strategy makes of a response, under its [except Exception]. *)
Definition listing_posts (w : world) (response : result value) : list post :=
  match (data <- response ;; listing_children data)%py with
  | Ok children => extract_children w children []
  | Raise _ => []
  end.

Definition _search_via_json_api (w : world) (search_term time_filter sort : string)
    (limit : Z) : list post :=
  listing_posts w (site_search w search_term sort time_filter (Z.min limit 100)).

Definition _search_subreddit_json (w : world) (search_term subreddit : string)
    (limit : Z) : list post :=
  listing_posts w (subreddit_search w search_term subreddit limit).

Definition target_subreddits : list string :=
  [ "technology"; "business"; "news"; "worldnews"; "stocks";
    "investing"; "entrepreneur"; "startups"; "tech"; "gadgets" ].

Definition _search_multiple_subreddits (w : world) (search_term : string) (limit : Z)
  : list post :=
  let posts_per_subreddit := Z.max 1 (limit / Z.of_nat (List.length target_subreddits)) in
  flat_map (fun subreddit => _search_subreddit_json w search_term subreddit posts_per_subreddit)
           target_subreddits.

(** [init_browser], on the flag that tells whether [self.driver] is set:
    the new flag, or the exception of the launch. *)
Definition init_browser (w : world) (driver : bool) : result bool :=
  if driver then Ok true
  else (_ <- launch_chrome w ;; Ok true)%py.

(** The loop over the containers found, ranks counted from [i]. *)
Fixpoint extract_elements (w : world) (i : nat) (posts : list element) : list post :=
  match posts with
  | [] => []
  | e :: rest =>
    match _extract_browser_post_data w i e with
    | Some p => p :: extract_elements w (S i) rest
    | None => extract_elements w (S i) rest
    end
  end.

(** [_search_via_browser]: the posts, and the driver flag it leaves. *)
Definition _search_via_browser (w : world) (driver : bool)
    (search_term time_filter sort : string) (limit : Z) : list post * bool :=
  match init_browser w driver with
  | Raise _ => ([], driver)
  | Ok driver' =>
    match load_page w search_term sort time_filter with
    | Raise _ => ([], driver')
    | Ok posts => (extract_elements w 0 (slice_to posts limit), driver')
    end
  end.

(* ================================================================= *)
(** ** The aggregator *)

Definition created_utc (x : post) : value := get_default x "created_utc" (VInt 0).

(** The deduplication loop, with [seen_ids] and [unique_results] as they
    stand when the remaining results are visited. *)
Fixpoint dedup (seen_ids : list value) (unique_results remaining : list post)
  : result (list post) :=
  match remaining with
  | [] => Ok unique_results
  | r :: rest =>
    (found <- in_set (get r "id") seen_ids ;;
     if found : bool
     then dedup seen_ids unique_results rest
     else dedup (get r "id" :: seen_ids) (unique_results ++ [r]) rest)%py
  end.

(** [list.sort(key=..., reverse=True)] is a stable sort that compares the
    keys with [<] only, and that an exception of [<] aborts. It is modelled
    by insertion: each post, from the last to the first, goes past the
    posts whose key is greater than its own. When no key is a list or NaN
    the outcome, list or exception, is the same for every such sort: two
    keys compare if and only if both are numbers or both are strings. With
    a NaN among the keys [<] is not an order: the sort raises or not as
    said, and always returns a rearrangement of the list, but where it
    leaves each post depends on the comparisons its algorithm makes, and
    the list of the model need not be the one that [list.sort] returns.
    Every property below that depends on the order is stated for keys
    that are not NaN. *)
Fixpoint insert_newest (x : post) (sorted : list post) : result (list post) :=
  match sorted with
  | [] => Ok [x]
  | y :: rest =>
    (older <- py_lt (created_utc x) (created_utc y) ;;
     if older : bool
     then (r <- insert_newest x rest ;; Ok (y :: r))
     else Ok (x :: sorted))%py
  end.

Fixpoint sort_newest_first (l : list post) : result (list post) :=
  match l with
  | [] => Ok []
  | x :: rest => (s <- sort_newest_first rest ;; insert_newest x s)%py
  end.

Inductive strategy : Type := JsonApi | Browser | Fanout.

(** What a run does that its caller or the platform can observe. *)
Inductive event : Type :=
| Progress (fraction : Q)
| Call (s : strategy) (limit : Z)
| Quit.

(** The state of a run: the local [all_results], whether [self.driver] is
    set, and the events so far, oldest first. *)
Record run : Type := {
  all_results : list post;
  driver : bool;
  log : list event
}.

(** The exceptions of [exn] are caught by [except Exception] and are
    formatted by the f-string of the handler. The caller's callback can
    raise others, which leave [search_mentions]: an exception of a class
    that derives from [BaseException] and not from [Exception], or an
    [Exception] whose [__str__] raises, so that the f-string of the
    handler raises in turn. *)
Inductive escape : Type :=
| KeyboardInterrupt
| SystemExit
| OtherBaseException
| Unprintable.

(** How a step of [search_mentions] ends: with a result, or with an
    exception that escapes. A result is read as an outcome. *)
Inductive outcome (A : Type) : Type :=
| Done (r : result A)
| Escapes (b : escape).
Arguments Done {A} r.
Arguments Escapes {A} b.

Coercion Done : result >-> outcome.

(** A pair or an optional function takes its type from where it stands,
    so that a result inside it is read as an outcome. *)
#[local] Arguments pair {A B}%_type_scope & a b.
#[local] Arguments Some {A}%_type_scope & a.

Definition returned {A} (o : outcome A) : bool :=
  match o with
  | Done (Ok _) => true
  | _ => false
  end.

(** A step of the [try] block: it changes the state and returns or raises.
    The state is kept when it raises. *)
Definition step (A : Type) : Type := run -> run * outcome A.

Definition ret {A} (a : A) : step A := fun s => (s, Done (Ok a)).

Definition bind {A B} (m : step A) (k : A -> step B) : step B :=
  fun s =>
    match m s with
    | (s', Done (Ok a)) => k a s'
    | (s', Done (Raise e)) => (s', Done (Raise e))
    | (s', Escapes b) => (s', Escapes b)
    end.

Declare Scope step_scope.
Delimit Scope step_scope with step.
Notation "x <- m ;; k" := (bind m (fun x => k))
  (at level 61, m at next level, right associativity) : step_scope.

Definition lift {A} (r : result A) : step A := fun s => (s, Done r).

(** A call of the caller's code. *)
Definition call {A} (o : outcome A) : step A := fun s => (s, o).

Definition emit (e : event) : step unit :=
  fun s => ({| all_results := all_results s; driver := driver s; log := log s ++ [e] |},
            Done (Ok tt)).

(** [all_results.extend(l)]. *)
Definition extend (l : list post) : step unit :=
  fun s => ({| all_results := all_results s ++ l; driver := driver s; log := log s |},
            Done (Ok tt)).

Definition collected : step (list post) := fun s => (s, Done (Ok (all_results s))).

(** [if progress_callback: progress_callback(fraction)]. *)
Definition report (progress_callback : option (Q -> outcome unit)) (fraction : Q) : step unit :=
  match progress_callback with
  | Some callback => (_ <- emit (Progress fraction) ;; call (callback fraction))%step
  | None => ret tt
  end.

Definition browser_step (w : world) (search_term time_filter sort : string) (limit : Z)
  : step (list post) :=
  fun s =>
    let found := _search_via_browser w (driver s) search_term time_filter sort limit in
    ({| all_results := all_results s; driver := snd found; log := log s |},
     Done (Ok (fst found))).

(** The [try] block of [search_mentions]. *)
Definition search_body (w : world) (search_term time_filter sort : string) (limit : Z)
    (progress_callback : option (Q -> outcome unit)) : step (list post) :=
  (_ <- report progress_callback (1 # 10) ;;
   _ <- emit (Call JsonApi (limit / 2)) ;;
   _ <- extend (_search_via_json_api w search_term time_filter sort (limit / 2)) ;;
   _ <- report progress_callback (4 # 10) ;;
   _ <- emit (Call Browser (limit / 2)) ;;
   browser_results <- browser_step w search_term time_filter sort (limit / 2) ;;
   _ <- extend browser_results ;;
   _ <- report progress_callback (7 # 10) ;;
   so_far <- collected ;;
   _ <- (if Z.of_nat (List.length so_far) <? limit / 2
         then (_ <- emit (Call Fanout (limit / 4)) ;;
               extend (_search_multiple_subreddits w search_term (limit / 4)))
         else ret tt) ;;
   _ <- report progress_callback (9 # 10) ;;
   merged <- collected ;;
   unique_results <- lift (dedup [] [] merged) ;;
   sorted <- lift (sort_newest_first unique_results) ;;
   ret (slice_to sorted limit))%step.

(** [close_browser]. *)
Definition close_browser (s : run) : run :=
  if driver s
  then {| all_results := all_results s; driver := false; log := log s ++ [Quit] |}
  else s.

(** [search_mentions] on a scraper whose [self.driver] is set or not:
    the [try] block, the [except Exception] that logs the exception and
    returns [all_results] as it stands, and the [finally] that closes the
    browser, whatever the way out. [include_comments] is accepted and never
    read. *)
Definition search_mentions (w : world) (driver0 : bool)
    (search_term time_filter sort : string) (limit : Z) (include_comments : bool)
    (progress_callback : option (Q -> outcome unit)) : run * outcome (list post) :=
  let start := {| all_results := []; driver := driver0; log := [] |} in
  let (s, ended) := search_body w search_term time_filter sort limit progress_callback start in
  let left :=
    match ended with
    | Done (Ok l) => Done (Ok l)
    | Done (Raise _) => Done (Ok (all_results s))
    | Escapes b => Escapes b
    end in
  (close_browser s, left).

(* ================================================================= *)
(** ** Vocabulary of the properties *)

Definition start (driver0 : bool) : run :=
  {| all_results := []; driver := driver0; log := [] |}.

Definition post_id (p : post) : value := get p "id".

(** What the three strategies contribute to a search of a given [limit]. *)
Definition json_results (w : world) (search_term time_filter sort : string) (limit : Z) :=
  _search_via_json_api w search_term time_filter sort (limit / 2).

Definition browser_results (w : world) (driver0 : bool)
    (search_term time_filter sort : string) (limit : Z) :=
  fst (_search_via_browser w driver0 search_term time_filter sort (limit / 2)).

Definition fanout_results (w : world) (search_term : string) (limit : Z) :=
  _search_multiple_subreddits w search_term (limit / 4).

(** The merge of a run that reaches the deduplication: API, then browser,
    then fan-out when the first two fall short of half the limit. *)
Definition merged_results (w : world) (driver0 : bool)
    (search_term time_filter sort : string) (limit : Z) : list post :=
  let first_two := (json_results w search_term time_filter sort limit
                    ++ browser_results w driver0 search_term time_filter sort limit)%list in
  if Z.of_nat (List.length first_two) <? limit / 2
  then (first_two ++ fanout_results w search_term limit)%list
  else first_two.

(** What the callback does at a checkpoint; without a callback nothing is
    called. *)
Definition callback_outcome (progress_callback : option (Q -> outcome unit)) (fraction : Q)
  : outcome unit :=
  match progress_callback with
  | Some callback => callback fraction
  | None => Done (Ok tt)
  end.

(** The callback returns at a checkpoint (or there is no callback). *)
Definition callback_returns (progress_callback : option (Q -> outcome unit)) (fraction : Q) : bool :=
  match progress_callback with
  | Some callback => returned (callback fraction)
  | None => true
  end.

(** The posts the loop keeps: those whose identifier has not been seen. *)
Fixpoint first_seen (seen_ids : list value) (l : list post) : list post :=
  match l with
  | [] => []
  | r :: rest =>
    if existsb (py_eq (post_id r)) seen_ids
    then first_seen seen_ids rest
    else r :: first_seen (post_id r :: seen_ids) rest
  end.

Definition is_list (v : value) : bool :=
  match v with
  | VList _ => true
  | _ => false
  end.

(** [a] is not older than [b]: [created_utc] of [a] is not below that of [b]. *)
Definition not_older (a b : post) : Prop :=
  py_lt (created_utc a) (created_utc b) = Ok false.

(** The posts of a list whose [created_utc] equals [k]. *)
Definition created_at (k : value) (l : list post) : list post :=
  filter (fun p => py_eq (created_utc p) k) l.

(** The keys of a post. *)
Definition post_fields : list string :=
  [ "id"; "title"; "selftext"; "author"; "subreddit"; "score"; "upvote_ratio";
    "num_comments"; "created_utc"; "url"; "permalink"; "domain"; "is_self" ].

(** The post's identifier is the empty string. *)
Definition idless (p : post) : bool := py_eq (post_id p) (VStr "").

(** The last three statements of the [try] block, on the merged list. *)
Definition finish (merged : list post) (limit : Z) : result (list post) :=
  (unique_results <- dedup [] [] merged ;;
   sorted <- sort_newest_first unique_results ;;
   Ok (slice_to sorted limit))%py.

(** How the [try] block can end: the [all_results] it leaves, and what it
    returns or raises. It stops at the first checkpoint where the callback
    raises, with what the callback raised; past the last one, it ends as
    the last three statements do. *)
Inductive ends (w : world) (driver0 : bool) (search_term time_filter sort : string)
    (limit : Z) (progress_callback : option (Q -> outcome unit))
  : list post -> outcome (list post) -> Prop :=
| ends_at_start o :
    callback_returns progress_callback (1 # 10) = false -> returned o = false ->
    ends w driver0 search_term time_filter sort limit progress_callback [] o
| ends_after_api o :
    callback_returns progress_callback (1 # 10) = true ->
    callback_returns progress_callback (4 # 10) = false -> returned o = false ->
    ends w driver0 search_term time_filter sort limit progress_callback
      (json_results w search_term time_filter sort limit) o
| ends_after_browser o :
    callback_returns progress_callback (1 # 10) = true ->
    callback_returns progress_callback (4 # 10) = true ->
    callback_returns progress_callback (7 # 10) = false -> returned o = false ->
    ends w driver0 search_term time_filter sort limit progress_callback
      (json_results w search_term time_filter sort limit
       ++ browser_results w driver0 search_term time_filter sort limit)%list o
| ends_after_merge o :
    callback_returns progress_callback (1 # 10) = true ->
    callback_returns progress_callback (4 # 10) = true ->
    callback_returns progress_callback (7 # 10) = true ->
    callback_returns progress_callback (9 # 10) = false -> returned o = false ->
    ends w driver0 search_term time_filter sort limit progress_callback
      (merged_results w driver0 search_term time_filter sort limit) o
| ends_in_finish :
    callback_returns progress_callback (1 # 10) = true ->
    callback_returns progress_callback (4 # 10) = true ->
    callback_returns progress_callback (7 # 10) = true ->
    callback_returns progress_callback (9 # 10) = true ->
    ends w driver0 search_term time_filter sort limit progress_callback
      (merged_results w driver0 search_term time_filter sort limit)
      (finish (merged_results w driver0 search_term time_filter sort limit) limit).


(* ================================================================= *)
(** ** Example runs *)

(** A listing as the platform's search endpoints send it. *)
Definition child (fields : dict) : value :=
  VDict [("kind", VStr "t3"); ("data", VDict fields)].

Definition listing (children : list value) : value :=
  VDict [("kind", VStr "Listing"); ("data", VDict [("children", VList children)])].

Definition record (id : string) (created : value) : dict :=
  [("id", VStr id); ("title", VStr "Tesla"); ("created_utc", created);
   ("permalink", VStr ("/r/technology/comments/" ++ id ++ "/"))].

(** [str] on [None], booleans and integers; the examples render nothing
    else. *)
Definition render_plain (v : value) : string :=
  match v with
  | VNone => "None"
  | VBool true => "True"
  | VBool false => "False"
  | VInt n => decimal n
  | _ => ""
  end.

(** No network and no browser engine. *)
Definition offline : world := {|
  render := render_plain;
  site_search := fun _ _ _ _ => Raise RequestException;
  subreddit_search := fun _ _ _ => Raise RequestException;
  launch_chrome := Raise WebDriverException;
  load_page := fun _ _ _ => Raise WebDriverException;
  randint := fun _ => 100000;
  clock := fun _ => 0
|}.

(** The site-wide search finds post [a]; five subreddits find a post
    each, [a] again among them; there is no browser engine. The post [c]
    carries the [created_utc] given. *)
Definition platform (created_c : value) : world := {|
  render := render_plain;
  site_search := fun _ _ _ _ => Ok (listing [child (record "a" (VFloat 200))]);
  subreddit_search := fun _ subreddit _ =>
    if String.eqb subreddit "technology" then Ok (listing [child (record "a" (VFloat 200))])
    else if String.eqb subreddit "business" then Ok (listing [child (record "b" (VFloat 300))])
    else if String.eqb subreddit "news" then Ok (listing [child (record "c" created_c)])
    else if String.eqb subreddit "worldnews" then Ok (listing [child (record "e" (VInt 50))])
    else if String.eqb subreddit "stocks" then Ok (listing [child (record "d" (VFloat 100))])
    else Ok (listing []);
  launch_chrome := Raise WebDriverException;
  load_page := fun _ _ _ => Raise WebDriverException;
  randint := fun _ => 100000;
  clock := fun _ => 0
|}.

(** Every [created_utc] is a number. *)
Definition calm : world := platform (VFloat 250).

(** One post has [null] for [created_utc]. *)
Definition troubled : world := platform VNone.

(* ================================================================= *)
(** ** Vocabulary of the further properties *)

(** The record that the listing loop reads in a child: [child['data']]
    when the child is a dictionary that has it and it is a dictionary. *)
Definition child_record (c : value) : option dict :=
  match getitem c "data" with
  | Ok (VDict d) => Some d
  | _ => None
  end.

(** The keys of a post of the browser strategy, in the order of its
    dictionary. *)
Definition browser_fields : list string :=
  [ "id"; "title"; "subreddit"; "score"; "num_comments"; "permalink"; "created_utc";
    "author"; "selftext"; "upvote_ratio"; "url"; "domain"; "is_self" ].

(** The post has every key of [post_fields]. *)
Definition has_all_fields (p : post) : bool :=
  forallb (fun k => match lookup k p with Some _ => true | None => false end) post_fields.

(** The fractions reported to the callback and the strategies called, with
    the number of posts asked of each, in the order of the log. *)
Definition progress_fractions (l : list event) : list Q :=
  flat_map (fun e => match e with Progress f => [f] | _ => [] end) l.

Definition calls (l : list event) : list (strategy * Z) :=
  flat_map (fun e => match e with Call s n => [(s, n)] | _ => [] end) l.

Definition checkpoints : list Q := [1 # 10; 4 # 10; 7 # 10; 9 # 10].

(* ================================================================= *)
(** ** The caller *)

(** The float of a fraction written as a decimal literal: the quotient is
    rounded once. *)
Definition float_of_fraction (f : Q) : float64 :=
  match Qnum f with
  | Zpos p => SFdiv prec emax (S754_finite false p 0) (S754_finite false (Qden f) 0)
  | Zneg p => SFdiv prec emax (S754_finite true p 0) (S754_finite false (Qden f) 0)
  | Z0 => S754_zero false
  end.

(** [execute_search] of [app.py] passes
    [lambda p: progress_bar.progress(20 + int(p * 0.7))] as the callback.
    [bar_value] is the argument of [progress_bar.progress]. *)
Definition bar_value (p : Q) : result Z :=
  (n <- int_of_float (SFmul prec emax (float_of_fraction p) (float_of_decimal false 7 (-1))) ;;
   Ok (20 + n))%py.

(** The progress bar takes an integer from 0 to 100 and raises on any
    other. *)
Definition bar_callback (p : Q) : outcome unit :=
  (v <- bar_value p ;;
   if (0 <=? v) && (v <=? 100) then Ok tt else Raise CallbackError)%py.

(* ================================================================= *)
(** ** Further examples *)

(** A page with three containers: one complete, one without title, one
    whose score is hidden. *)
Definition container (title votes comments : option string) : element := {|
  h3 := title;
  subreddit_name := Some "r/technology";
  vote_count := votes;
  comment_count := comments;
  title_link := Some (Some "https://www.reddit.com/r/technology/comments/x/")
|}.

Definition rendered : world := {|
  render := render_plain;
  site_search := fun _ _ _ _ => Raise RequestException;
  subreddit_search := fun _ _ _ => Raise RequestException;
  launch_chrome := Ok tt;
  load_page := fun _ _ _ =>
    Ok [ container (Some "Tesla recall") (Some "32.3k") (Some "1,204 comments");
         container None (Some "12") (Some "3 comments");
         container (Some "Tesla Q3") (Some "Vote") (Some "comment") ];
  randint := fun i => 100000 + Z.of_nat i;
  clock := fun _ => 1700000000
|}.

(** The site-wide search finds a post whose [id] is a JSON array, and the
    post [a]; there is nothing else. *)
Definition odd_ids : world := {|
  render := render_plain;
  site_search := fun _ _ _ _ =>
    Ok (listing [child [("id", VList [VInt 7]); ("created_utc", VInt 300)];
                 child (record "a" (VInt 200))]);
  subreddit_search := fun _ _ _ => Raise RequestException;
  launch_chrome := Raise WebDriverException;
  load_page := fun _ _ _ => Raise WebDriverException;
  randint := fun _ => 100000;
  clock := fun _ => 0
|}.

(** The checks of the [k] rule on one text: a whole number of thousands
    is read exactly; a number of thousands with one decimal is read
    exactly or one below. The text of rank [i] is [i] followed by [k], or
    [i / 10], a point, [i mod 10] and [k]. *)
Definition whole_k_ok (i : nat) : bool :=
  match _parse_score (decimal (Z.of_nat i) ++ "k") with
  | Ok v => v =? 1000 * Z.of_nat i
  | Raise _ => false
  end.

Definition decimal_k_ok (i : nat) : bool :=
  let a := Z.of_nat i / 10 in
  let b := Z.of_nat i mod 10 in
  match _parse_score (decimal a ++ "." ++ decimal b ++ "k") with
  | Ok v => (1000 * a + 100 * b - 1 <=? v) && (v <=? 1000 * a + 100 * b)
  | Raise _ => false
  end.

(** A callback that raises an exception at one checkpoint, and one that
    leaves the interpreter there; both return at the others. *)
Definition stop_at (checkpoint : Q) : Q -> outcome unit :=
  fun fraction => if Qeq_bool fraction checkpoint then Raise CallbackError else Ok tt.

Definition exit_at (checkpoint : Q) : Q -> outcome unit :=
  fun fraction => if Qeq_bool fraction checkpoint then Escapes SystemExit else Ok tt.



(** The site-wide search finds three posts, the second of which has NaN
    for [created_utc]; there is nothing else. *)
Definition unordered : world := {|
  render := render_plain;
  site_search := fun _ _ _ _ =>
    Ok (listing [child (record "p" (VFloat 1)); child (record "q" VNaN);
                 child (record "r" (VFloat 2))]);
  subreddit_search := fun _ _ _ => Raise RequestException;
  launch_chrome := Raise WebDriverException;
  load_page := fun _ _ _ => Raise WebDriverException;
  randint := fun _ => 100000;
  clock := fun _ => 0
|}.
(* ================================================================= *)
(** * Properties *)

(** ** Equality of identifiers *)

Lemma Qeq_bool_sym x y : Qeq_bool x y = Qeq_bool y x.
Proof.
  destruct (Qeq_bool x y) eqn:H, (Qeq_bool y x) eqn:H'; auto.
  - apply Qeq_bool_iff in H. symmetry in H. apply Qeq_bool_iff in H. congruence.
  - apply Qeq_bool_iff in H'. symmetry in H'. apply Qeq_bool_iff in H'. congruence.
Qed.

Lemma Qeq_bool_trans x y z : Qeq_bool x y = true -> Qeq_bool y z = true -> Qeq_bool x z = true.
Proof.
  rewrite !Qeq_bool_iff. intros H1 H2. now rewrite H1.
Qed.

Lemma number_same_refl x : number_same x x = true.
Proof.
  destruct x as [q|[]|]; cbn; auto using Qeq_bool_refl.
Qed.

Lemma number_same_sym x y : number_same x y = number_same y x.
Proof.
  destruct x as [a|[]|], y as [b|[]|]; cbn; auto using Qeq_bool_sym.
Qed.

Lemma number_same_trans x y z :
  number_same x y = true -> number_same y z = true -> number_same x z = true.
Proof.
  destruct x as [a|[]|], y as [b|[]|], z as [c|[]|]; cbn; try discriminate;
    eauto using Qeq_bool_trans.
Qed.

Lemma py_eq_refl a : hashable a = true -> py_eq a a = true.
Proof.
  destruct a; cbn; try discriminate; intros _;
    auto using Qeq_bool_refl, String.eqb_refl, eqb_reflx.
Qed.

Lemma py_eq_hashable a b : hashable a = true -> py_eq a b = true -> hashable b = true.
Proof.
  destruct a, b; cbn; auto; discriminate.
Qed.

Lemma py_eq_sym a b : hashable a = true -> hashable b = true -> py_eq a b = py_eq b a.
Proof.
  destruct a, b; cbn; try discriminate; intros _ _;
    auto using Qeq_bool_sym, String.eqb_sym.
  now destruct negative, negative0.
Qed.

Lemma py_eq_trans a b c :
  hashable a = true -> hashable b = true ->
  py_eq a b = true -> py_eq b c = true -> py_eq a c = true.
Proof.
  destruct a, b; cbn; try discriminate; intros _ _; destruct c; cbn;
    try discriminate; eauto using Qeq_bool_trans;
    rewrite ?String.eqb_eq, ?Bool.eqb_true_iff; congruence.
Qed.

(** ** The deduplication loop *)

Lemma dedup_first_seen remaining : forall seen unique_results out,
  dedup seen unique_results remaining = Ok out ->
  Forall (fun p => hashable (post_id p) = true) remaining
  /\ out = (unique_results ++ first_seen seen remaining)%list.
Proof.
  induction remaining as [|r rest IH]; intros seen u out H.
  - cbn in H. inversion H. rewrite app_nil_r. auto.
  - cbn in H. unfold in_set in H. fold (post_id r) in H.
    destruct (hashable (post_id r)) eqn:Hh; [|discriminate]. cbn in H.
    destruct (existsb (py_eq (post_id r)) seen) eqn:Hs; cbn.
    + apply IH in H as [Hf ->]. rewrite Hs. auto.
    + apply IH in H as [Hf ->]. rewrite Hs, <- app_assoc. auto.
Qed.

Lemma dedup_hashable remaining : forall seen unique_results,
  Forall (fun p => hashable (post_id p) = true) remaining ->
  dedup seen unique_results remaining = Ok (unique_results ++ first_seen seen remaining)%list.
Proof.
  induction remaining as [|r rest IH]; intros seen u H.
  - cbn. now rewrite app_nil_r.
  - inversion H as [|? ? Hr Hrest]; subst. cbn. unfold in_set. fold (post_id r).
    rewrite Hr. cbn. destruct (existsb (py_eq (post_id r)) seen); cbn.
    + now apply IH.
    + rewrite IH by assumption. now rewrite <- app_assoc.
Qed.

Lemma first_seen_incl l : forall seen p, In p (first_seen seen l) -> In p l.
Proof.
  induction l as [|r rest IH]; intros seen p; cbn; auto.
  destruct (existsb (py_eq (post_id r)) seen); cbn; intros H.
  - right. eapply IH; eauto.
  - destruct H; auto. right. eapply IH; eauto.
Qed.

(** A post that is kept was not seen, and is the first of the list with
    its identifier. *)
Lemma first_seen_first l : forall seen p,
  Forall (fun s => hashable s = true) seen ->
  Forall (fun q => hashable (post_id q) = true) l ->
  In p (first_seen seen l) ->
  existsb (py_eq (post_id p)) seen = false
  /\ find (fun q => py_eq (post_id q) (post_id p)) l = Some p.
Proof.
  induction l as [|r rest IH]; intros seen p Hseen Hl; cbn; [tauto|].
  inversion Hl as [|? ? Hr Hrest]; subst.
  destruct (existsb (py_eq (post_id r)) seen) eqn:Hs; cbn; intros H.
  - destruct (IH seen p Hseen Hrest H) as [Hp Hfind]. split; auto.
    assert (Hhp : hashable (post_id p) = true).
    { apply first_seen_incl in H. rewrite Forall_forall in Hrest. auto. }
    destruct (py_eq (post_id r) (post_id p)) eqn:Hrp; auto.
    exfalso. apply existsb_exists in Hs as [s [Hin Hrs]].
    assert (py_eq (post_id p) s = true).
    { apply py_eq_trans with (post_id r); auto. rewrite py_eq_sym; auto. }
    assert (existsb (py_eq (post_id p)) seen = true) by (apply existsb_exists; eauto).
    congruence.
  - destruct H as [<-|H].
    + split; auto. now rewrite py_eq_refl.
    + assert (Hseen' : Forall (fun s => hashable s = true) (post_id r :: seen)) by auto.
      destruct (IH _ p Hseen' Hrest H) as [Hp Hfind]. cbn in Hp.
      apply orb_false_iff in Hp as [Hpr Hp]. split; auto.
      assert (Hhp : hashable (post_id p) = true).
      { apply first_seen_incl in H. rewrite Forall_forall in Hrest. auto. }
      rewrite py_eq_sym, Hpr; auto.
Qed.

(** At most one kept post per identifier, and none for an identifier that
    was already seen. *)
Lemma first_seen_count l : forall seen v,
  Forall (fun s => hashable s = true) seen ->
  Forall (fun q => hashable (post_id q) = true) l ->
  (List.length (filter (fun q => py_eq (post_id q) v) (first_seen seen l)) <= 1)%nat
  /\ (existsb (fun s => py_eq s v) seen = true ->
      filter (fun q => py_eq (post_id q) v) (first_seen seen l) = []).
Proof.
  induction l as [|r rest IH]; intros seen v Hseen Hl; cbn; [auto|].
  inversion Hl as [|? ? Hr Hrest]; subst.
  destruct (existsb (py_eq (post_id r)) seen) eqn:Hs; cbn.
  - now apply IH.
  - assert (Hseen' : Forall (fun s => hashable s = true) (post_id r :: seen)) by auto.
    destruct (IH _ v Hseen' Hrest) as [Hle Hnone]. cbn in Hnone.
    destruct (py_eq (post_id r) v) eqn:Hrv; cbn.
    + rewrite Hnone by reflexivity. split; [cbn; lia|]. intros Hex. exfalso.
      apply existsb_exists in Hex as [s [Hin Hsv]].
      rewrite Forall_forall in Hseen.
      assert (hashable v = true) by (eapply py_eq_hashable; eauto).
      assert (py_eq (post_id r) s = true).
      { apply py_eq_trans with v; auto. rewrite py_eq_sym; auto. }
      assert (existsb (py_eq (post_id r)) seen = true) by (apply existsb_exists; eauto).
      congruence.
    + split; auto.
Qed.

(** ** The order of the sort keys *)

Lemma Qltb_lt x y : Qltb x y = true <-> (x < y)%Q.
Proof.
  unfold Qltb. rewrite negb_true_iff. split; intros H.
  - apply Qnot_le_lt. intros Hle. apply Qle_bool_iff in Hle. congruence.
  - destruct (Qle_bool y x) eqn:E; auto. apply Qle_bool_iff in E.
    exfalso. eapply Qlt_not_le; eauto.
Qed.

Lemma Qltb_ge x y : Qltb x y = false <-> (y <= x)%Q.
Proof.
  unfold Qltb. rewrite negb_false_iff. apply Qle_bool_iff.
Qed.

Lemma string_ltb_lt s t : String.ltb s t = true <-> OrderedTypeEx.String_as_OT.lt s t.
Proof.
  rewrite <- OrderedTypeEx.String_as_OT.cmp_lt. unfold String.ltb, OrderedTypeEx.String_as_OT.cmp.
  destruct (String.compare s t); split; congruence.
Qed.

Lemma string_ltb_irrefl s : String.ltb s s = false.
Proof.
  destruct (String.ltb s s) eqn:E; auto. apply string_ltb_lt in E.
  exfalso. eapply OrderedTypeEx.String_as_OT.lt_not_eq; eauto. reflexivity.
Qed.

Lemma string_ltb_asym s t : String.ltb s t = true -> String.ltb t s = false.
Proof.
  intros H. destruct (String.ltb t s) eqn:E; auto.
  apply string_ltb_lt in H, E.
  exfalso. eapply OrderedTypeEx.String_as_OT.lt_not_eq.
  - eapply OrderedTypeEx.String_as_OT.lt_trans; eauto.
  - reflexivity.
Qed.

Lemma string_ltb_total s t : String.ltb s t = false -> String.ltb t s = false -> s = t.
Proof.
  unfold String.ltb. rewrite (String.compare_antisym t s).
  destruct (String.compare s t) eqn:E; cbn; try discriminate.
  intros _ _. now apply String.compare_eq_iff.
Qed.

Lemma string_geb_trans s t u :
  String.ltb s t = false -> String.ltb t u = false -> String.ltb s u = false.
Proof.
  intros H1 H2. destruct (String.ltb s u) eqn:E; auto. exfalso.
  destruct (String.ltb u t) eqn:Hut.
  - (* s < u < t *)
    apply string_ltb_lt in E, Hut.
    assert (Hst : String.ltb s t = true).
    { apply string_ltb_lt. eapply OrderedTypeEx.String_as_OT.lt_trans; eauto. }
    congruence.
  - assert (t = u) by now apply string_ltb_total. subst. congruence.
Qed.

(** [<] between numbers. *)
Lemma number_ltb_asym x y : number_ltb x y = true -> number_ltb y x = false.
Proof.
  destruct x as [a|[]|], y as [b|[]|]; cbn; try discriminate; auto.
  intros H. apply Qltb_lt in H. apply Qltb_ge. now apply Qlt_le_weak.
Qed.

Lemma number_geb_trans x y z :
  y <> NotANumber ->
  number_ltb x y = false -> number_ltb y z = false -> number_ltb x z = false.
Proof.
  destruct x as [a|[]|], y as [b|[]|], z as [c|[]|]; cbn; try discriminate; auto;
    try congruence.
  intros _ H1 H2. apply Qltb_ge in H1, H2. apply Qltb_ge. eapply Qle_trans; eauto.
Qed.

Lemma number_same_not_lt x y k :
  number_same x k = true -> number_same y k = true -> number_ltb x y = false.
Proof.
  destruct x as [a|[]|], y as [b|[]|], k as [c|[]|]; cbn; try discriminate; auto.
  intros H1 H2. apply Qeq_bool_iff in H1, H2. apply Qltb_ge. rewrite H1, H2.
  apply Qle_refl.
Qed.

Lemma as_number_nan v : as_number v = Some NotANumber -> is_nan v = true.
Proof.
  destruct v; cbn; try discriminate; auto.
Qed.

(** When [a < b] is defined, both are numbers, or strings, or lists. *)
Lemma py_lt_inv a b r :
  py_lt a b = Ok r ->
  (exists x y, as_number a = Some x /\ as_number b = Some y /\ r = number_ltb x y)
  \/ (exists s t, a = VStr s /\ b = VStr t /\ r = String.ltb s t)
  \/ (is_list a = true /\ is_list b = true).
Proof.
  destruct a, b; cbn; intros H; try discriminate; inversion H; subst;
    try (left; do 2 eexists; repeat split; reflexivity);
    try (right; left; do 2 eexists; repeat split; reflexivity);
    right; right; auto.
Qed.

Lemma py_lt_numbers a b x y :
  as_number a = Some x -> as_number b = Some y -> py_lt a b = Ok (number_ltb x y).
Proof.
  destruct a, b; cbn; intros Ha Hb; inversion Ha; inversion Hb; subst; auto.
Qed.

Lemma py_eq_inv a k :
  is_list a = false -> py_eq a k = true ->
  (exists x y, as_number a = Some x /\ as_number k = Some y /\ number_same x y = true)
  \/ (exists s, a = VStr s /\ k = VStr s)
  \/ (as_number a = None /\ forall b r, py_lt a b <> Ok r).
Proof.
  destruct a, k; cbn; intros Hl H; try discriminate;
    try (left; do 2 eexists; repeat split; try reflexivity; assumption).
  - right; right. split; auto. intros b r. destruct b; cbn; discriminate.
  - apply String.eqb_eq in H. subst. right; left. eauto.
  - right; right. split; auto. intros b r. destruct b; cbn; discriminate.
Qed.

Lemma py_lt_asym a b :
  is_list a = false -> py_lt a b = Ok true -> py_lt b a = Ok false.
Proof.
  intros Hl H. destruct (py_lt_inv _ _ _ H) as [(x & y & Ha & Hb & E)|[(s & t & -> & -> & E)|[Ha _]]].
  - rewrite (py_lt_numbers _ _ _ _ Hb Ha). f_equal. symmetry in E.
    now apply number_ltb_asym.
  - cbn. f_equal. symmetry in E. now apply string_ltb_asym.
  - congruence.
Qed.

(** Between keys that are not NaN, not being older is transitive. *)
Lemma not_older_trans_value a b c :
  is_list b = false -> is_nan b = false ->
  py_lt a b = Ok false -> py_lt b c = Ok false -> py_lt a c = Ok false.
Proof.
  intros Hl Hn H1 H2.
  destruct (py_lt_inv _ _ _ H1) as [(x & y & Ha & Hb & E1)|[(s & t & -> & -> & E1)|[_ Hb]]];
    [| |congruence].
  - destruct (py_lt_inv _ _ _ H2) as [(y' & z & Hb' & Hc & E2)|[(s & t & -> & -> & E2)|[Hb' _]]];
      [|discriminate|congruence].
    rewrite Hb in Hb'. inversion Hb'; subst y'.
    rewrite (py_lt_numbers _ _ _ _ Ha Hc). f_equal.
    symmetry in E1, E2. eapply number_geb_trans; eauto.
    intros ->. apply as_number_nan in Hb. congruence.
  - destruct (py_lt_inv _ _ _ H2) as [(y' & z & Hb' & Hc & E2)|[(s' & u & Hs & -> & E2)|[Hb' _]]];
      [discriminate| |discriminate].
    inversion Hs; subst s'. cbn. f_equal. symmetry in E1, E2.
    eapply string_geb_trans; eauto.
Qed.

(** Two keys equal to the same value are not ordered by [<]. *)
Lemma py_eq_not_lt a b k :
  is_list a = false -> py_eq a k = true -> py_eq b k = true ->
  py_lt a b <> Ok true.
Proof.
  intros Hl Ha Hb H.
  destruct (py_eq_inv _ _ Hl Ha) as [(x & kx & Hx & Hk & E)|[(s & -> & ->)|[_ Hn]]].
  - destruct (py_lt_inv _ _ _ H) as [(x' & y & Hx' & Hy & E')|[(s & t & -> & -> & _)|[Hla _]]];
      [|discriminate|congruence].
    rewrite Hx in Hx'. inversion Hx'; subst x'.
    assert (Hyk : number_same y kx = true).
    { destruct b, k; cbn in *; try discriminate; inversion Hy; inversion Hk; subst;
        assumption. }
    rewrite (number_same_not_lt _ _ _ E Hyk) in E'. discriminate.
  - destruct b; cbn in Hb; try discriminate.
    apply String.eqb_eq in Hb. subst. cbn in H. rewrite string_ltb_irrefl in H. discriminate.
  - eapply Hn; eauto.
Qed.

(** ** The sort *)

Lemma insert_newest_perm x s : forall r,
  insert_newest x s = Ok r -> Permutation (x :: s) r.
Proof.
  induction s as [|y rest IH]; cbn; intros r H.
  - inversion H. auto.
  - destruct (py_lt (created_utc x) (created_utc y)) as [[|]|]; cbn in H; try discriminate.
    + destruct (insert_newest x rest) as [r'|]; cbn in H; inversion H; subst.
      rewrite perm_swap. constructor. now apply IH.
    + inversion H. auto.
Qed.

Lemma sort_newest_first_perm l : forall s,
  sort_newest_first l = Ok s -> Permutation l s.
Proof.
  induction l as [|x rest IH]; cbn; intros s H.
  - inversion H. auto.
  - destruct (sort_newest_first rest) as [s'|]; cbn in H; [|discriminate].
    apply insert_newest_perm in H. rewrite <- H. constructor. now apply IH.
Qed.

Lemma insert_newest_sorted x s : forall r,
  Forall (fun p => is_list (created_utc p) = false) (x :: s) ->
  Forall (fun p => is_nan (created_utc p) = false) (x :: s) ->
  StronglySorted not_older s ->
  insert_newest x s = Ok r -> StronglySorted not_older r.
Proof.
  induction s as [|y rest IH]; cbn; intros r Hk Hn Hs H.
  - inversion H. repeat constructor.
  - inversion Hk as [|? ? Hx Hk']; subst. inversion Hk' as [|? ? Hy Hrest]; subst.
    inversion Hn as [|? ? Hnx Hn']; subst. inversion Hn' as [|? ? Hny Hnrest]; subst.
    inversion Hs as [|? ? Hs' Hy']; subst.
    destruct (py_lt (created_utc x) (created_utc y)) as [[|]|] eqn:E; cbn in H; try discriminate.
    + destruct (insert_newest x rest) as [r'|] eqn:Er; cbn in H; inversion H; subst.
      constructor.
      * apply IH; auto.
      * apply insert_newest_perm in Er.
        eapply Permutation_Forall; [exact Er|]. constructor; auto.
        now apply py_lt_asym.
    + inversion H; subst. constructor; auto. constructor; auto.
      eapply Forall_impl; [|exact Hy']. intros z Hz. unfold not_older in *.
      eapply not_older_trans_value; eauto.
Qed.

Lemma sort_newest_first_sorted l : forall s,
  Forall (fun p => is_list (created_utc p) = false) l ->
  Forall (fun p => is_nan (created_utc p) = false) l ->
  sort_newest_first l = Ok s -> StronglySorted not_older s.
Proof.
  induction l as [|x rest IH]; cbn; intros s Hk Hn H.
  - inversion H. constructor.
  - inversion Hk as [|? ? Hx Hrest]; subst. inversion Hn as [|? ? Hnx Hnrest]; subst.
    destruct (sort_newest_first rest) as [s'|] eqn:E; cbn in H; [|discriminate].
    eapply insert_newest_sorted; [| |eapply IH; eauto|eauto].
    + constructor; auto.
      eapply Permutation_Forall; [eapply sort_newest_first_perm; eauto|auto].
    + constructor; auto.
      eapply Permutation_Forall; [eapply sort_newest_first_perm; eauto|auto].
Qed.

(** Posts of equal [created_utc] do not overtake one another. *)
Lemma insert_newest_stable k x s : forall r,
  is_list (created_utc x) = false ->
  insert_newest x s = Ok r -> created_at k r = created_at k (x :: s).
Proof.
  unfold created_at.
  induction s as [|y rest IH]; cbn; intros r Hx H.
  - inversion H. auto.
  - destruct (py_lt (created_utc x) (created_utc y)) as [[|]|] eqn:E; cbn in H; try discriminate.
    + destruct (insert_newest x rest) as [r'|] eqn:Er; cbn in H; inversion H; subst.
      cbn. rewrite (IH r' Hx eq_refl). cbn.
      destruct (py_eq (created_utc x) k) eqn:Ex, (py_eq (created_utc y) k) eqn:Ey; auto.
      exfalso. eapply py_eq_not_lt; eauto.
    + inversion H. auto.
Qed.

Lemma sort_newest_first_stable k l : forall s,
  Forall (fun p => is_list (created_utc p) = false) l ->
  sort_newest_first l = Ok s -> created_at k s = created_at k l.
Proof.
  induction l as [|x rest IH]; cbn; intros s Hk H.
  - inversion H. auto.
  - inversion Hk as [|? ? Hx Hrest]; subst.
    destruct (sort_newest_first rest) as [s'|] eqn:E; cbn in H; [|discriminate].
    rewrite (insert_newest_stable k x s' s Hx H). unfold created_at in *. cbn.
    now rewrite (IH s' Hrest eq_refl).
Qed.

(** Timestamps, being numbers, are not lists and can always be sorted. *)
Lemma number_is_not_list v : as_number v <> None -> is_list v = false.
Proof.
  destruct v; cbn; congruence.
Qed.


Lemma insert_newest_numbers x s :
  Forall (fun p => as_number (created_utc p) <> None) (x :: s) ->
  exists r, insert_newest x s = Ok r.
Proof.
  induction s as [|y rest IH]; cbn; intros H; eauto.
  inversion H as [|? ? Hx H']; subst. inversion H' as [|? ? Hy Hrest]; subst.
  destruct (as_number (created_utc x)) as [qx|] eqn:Ex; [|congruence].
  destruct (as_number (created_utc y)) as [qy|] eqn:Ey; [|congruence].
  rewrite (py_lt_numbers _ _ _ _ Ex Ey). cbn.
  destruct (number_ltb qx qy); eauto.
  destruct IH as [r Hr]; [constructor; auto; congruence|]. rewrite Hr. cbn. eauto.
Qed.

Lemma sort_newest_first_numbers l :
  Forall (fun p => as_number (created_utc p) <> None) l ->
  exists s, sort_newest_first l = Ok s.
Proof.
  induction l as [|x rest IH]; cbn; intros H; eauto.
  inversion H as [|? ? Hx Hrest]; subst.
  destruct (IH Hrest) as [s Hs]. rewrite Hs. cbn.
  apply insert_newest_numbers. constructor; auto.
  eapply Permutation_Forall; [eapply sort_newest_first_perm; eauto|auto].
Qed.

(** ** Slices *)

Lemma slice_to_firstn {A} (l : list A) n : exists k, slice_to l n = firstn k l.
Proof.
  unfold slice_to. destruct (n <? 0); eauto.
Qed.

Lemma slice_to_length {A} (l : list A) n :
  0 <= n -> Z.of_nat (List.length (slice_to l n)) <= n.
Proof.
  intros H. unfold slice_to. destruct (n <? 0) eqn:E; [lia|].
  pose proof (firstn_le_length (Z.to_nat n) l). lia.
Qed.

Lemma firstn_sorted {A} (R : A -> A -> Prop) (l : list A) : forall k,
  StronglySorted R l -> StronglySorted R (firstn k l).
Proof.
  induction l as [|x l IH]; intros [|k] H; cbn; try constructor.
  - inversion H; subst. auto.
  - inversion H as [|? ? _ Hx]; subst.
    rewrite Forall_forall in *. intros y Hy. apply Hx.
    rewrite <- (firstn_skipn k l). apply in_or_app. auto.
Qed.

Lemma firstn_incl {A} (l : list A) k x : In x (firstn k l) -> In x l.
Proof.
  intros H. rewrite <- (firstn_skipn k l). apply in_or_app. auto.
Qed.

Lemma filter_firstn_prefix {A} (f : A -> bool) (l : list A) k :
  exists later, filter f l = (filter f (firstn k l) ++ later)%list.
Proof.
  exists (filter f (skipn k l)). rewrite <- filter_app. now rewrite firstn_skipn.
Qed.

Lemma filter_firstn_length {A} (f : A -> bool) (l : list A) k :
  (List.length (filter f (firstn k l)) <= List.length (filter f l))%nat.
Proof.
  destruct (filter_firstn_prefix f l k) as [later ->]. rewrite length_app. lia.
Qed.

Lemma filter_perm {A} (f : A -> bool) (l l' : list A) :
  Permutation l l' -> Permutation (filter f l) (filter f l').
Proof.
  induction 1 as [|x l l' _ IH|x y l|l l' l'' _ IH1 _ IH2]; cbn; auto.
  - destruct (f x); auto.
  - destruct (f x), (f y); auto using perm_swap.
  - now rewrite IH1.
Qed.

(** The kept posts of identifier [v]: the first of the list, when [v] was
    not seen before. *)
Lemma first_seen_filter l : forall seen v,
  Forall (fun s => hashable s = true) seen ->
  Forall (fun q => hashable (post_id q) = true) l ->
  existsb (fun s => py_eq s v) seen = false ->
  filter (fun q => py_eq (post_id q) v) (first_seen seen l)
  = firstn 1 (filter (fun q => py_eq (post_id q) v) l).
Proof.
  induction l as [|r rest IH]; intros seen v Hseen Hl Hv; cbn; auto.
  inversion Hl as [|? ? Hr Hrest]; subst.
  destruct (existsb (py_eq (post_id r)) seen) eqn:Hs; cbn.
  - destruct (py_eq (post_id r) v) eqn:Hrv; [|now apply IH].
    exfalso. apply existsb_exists in Hs as [s [Hin Hrs]].
    rewrite Forall_forall in Hseen.
    assert (hashable v = true) by (eapply py_eq_hashable; eauto).
    assert (py_eq s v = true).
    { apply py_eq_trans with (post_id r); auto. rewrite py_eq_sym; auto. }
    assert (existsb (fun s => py_eq s v) seen = true) by (apply existsb_exists; eauto).
    congruence.
  - assert (Hseen' : Forall (fun s => hashable s = true) (post_id r :: seen)) by auto.
    destruct (py_eq (post_id r) v) eqn:Hrv; cbn.
    + f_equal. apply first_seen_count; auto. cbn. now rewrite Hrv.
    + apply IH; auto. cbn. now rewrite Hrv.
Qed.

(** ** What the last three statements return *)

Lemma finish_inv merged limit out :
  finish merged limit = Ok out ->
  Forall (fun p => hashable (post_id p) = true) merged
  /\ dedup [] [] merged = Ok (first_seen [] merged)
  /\ exists sorted k,
       sort_newest_first (first_seen [] merged) = Ok sorted
       /\ out = slice_to sorted limit /\ out = firstn k sorted.
Proof.
  unfold finish. intros H.
  destruct (dedup [] [] merged) as [u|] eqn:Hd; cbn in H; [|discriminate].
  destruct (sort_newest_first u) as [sorted|] eqn:Hs; cbn in H; [|discriminate].
  inversion H; subst. apply dedup_first_seen in Hd as [Hh ->]. cbn in *.
  split; [assumption|]. split; [reflexivity|].
  destruct (slice_to_firstn sorted limit) as [k Hk]. exists sorted, k. auto.
Qed.

Lemma finish_incl merged limit out p :
  finish merged limit = Ok out -> In p out -> In p merged.
Proof.
  intros H Hp. destruct (finish_inv _ _ _ H) as (_ & _ & sorted & k & Hs & _ & ->).
  apply firstn_incl in Hp.
  apply (Permutation_in _ (Permutation_sym (sort_newest_first_perm _ _ Hs))) in Hp.
  eapply first_seen_incl; eauto.
Qed.

(** Hashable identifiers and numeric timestamps are enough for them to
    return. *)
Lemma finish_returns merged limit :
  Forall (fun p => hashable (post_id p) = true) merged ->
  Forall (fun p => as_number (created_utc p) <> None) merged ->
  exists out, finish merged limit = Ok out.
Proof.
  intros Hid Hts. unfold finish. rewrite (dedup_hashable _ [] [] Hid). cbn.
  destruct (sort_newest_first_numbers (first_seen [] merged)) as [sorted Hs].
  { rewrite Forall_forall in *. intros p Hp. apply Hts. eapply first_seen_incl; eauto. }
  rewrite Hs. cbn. eauto.
Qed.

Lemma close_browser_log s ev :
  ev <> Quit -> (In ev (log (close_browser s)) <-> In ev (log s)).
Proof.
  intros Hq. unfold close_browser. destruct (driver s); cbn; [|tauto].
  rewrite in_app_iff. cbn. intuition congruence.
Qed.

Lemma close_browser_all_results s : all_results (close_browser s) = all_results s.
Proof.
  unfold close_browser. destruct (driver s); reflexivity.
Qed.

(* ================================================================= *)
(** * Runs of [search_mentions] *)

Section Run.

Variables (w : world) (d : bool) (q t sort : string) (limit : Z).
Variable cb : option (Q -> outcome unit).

Let J := json_results w q t sort limit.
Let B := browser_results w d q t sort limit.
Let F := fanout_results w q limit.
Let M := merged_results w d q t sort limit.
Let short := Z.of_nat (List.length (J ++ B)) <? limit / 2.

#[local] Arguments _search_via_browser : simpl never.
#[local] Arguments _search_via_json_api : simpl never.
#[local] Arguments _search_multiple_subreddits : simpl never.
#[local] Arguments dedup : simpl never.
#[local] Arguments sort_newest_first : simpl never.
#[local] Arguments slice_to : simpl never.

(** Unfold the steps of the [try] block down to the strategies. *)
Ltac open_body :=
  unfold search_body, callback_returns, report, browser_step, start;
  fold (json_results w q t sort limit); fold J;
  fold (fanout_results w q limit); fold F.

(** Decide the callback at the four checkpoints, one after the other. *)
Ltac at_checkpoint f p H :=
  destruct (f p) as [[[]|?]|?] eqn:H.

(** The last three statements, as steps, are [finish]. *)
Lemma finish_steps (merged : list post) (s : run) :
  match dedup [] [] merged with
  | Ok unique_results =>
    match sort_newest_first unique_results with
    | Ok sorted => ret (slice_to sorted limit) s
    | Raise e => (s, Raise e)
    end
  | Raise e => (s, Raise e)
  end = (s, finish merged limit).
Proof.
  unfold ret, finish.
  destruct (dedup [] [] merged) as [u|]; cbn; [|reflexivity].
  destruct (sort_newest_first u); reflexivity.
Qed.

Lemma search_body_ends :
  ends w d q t sort limit cb
       (all_results (fst (search_body w q t sort limit cb (start d))))
       (snd (search_body w q t sort limit cb (start d))).
Proof.
  assert (HM : M = if short then ((J ++ B) ++ F)%list else (J ++ B)%list) by reflexivity.
  open_body. destruct cb as [f|].
  - at_checkpoint f (1 # 10) H1; [|cbn; apply ends_at_start; cbn; now rewrite ?H1..].
    at_checkpoint f (4 # 10) H4;
      [|cbn; apply ends_after_api; cbn; now rewrite ?H1, ?H4..].
    at_checkpoint f (7 # 10) H7;
      [|cbn; apply ends_after_browser; cbn; now rewrite ?H1, ?H4, ?H7..].
    at_checkpoint f (9 # 10) H9; cbn;
      change (fst (_search_via_browser w d q t sort (limit / 2))) with B;
      fold short; destruct short; cbn; rewrite ?finish_steps; cbn; rewrite <- HM;
      first [ apply ends_in_finish | apply ends_after_merge ]; cbn;
      now rewrite ?H1, ?H4, ?H7, ?H9.
  - cbn. change (fst (_search_via_browser w d q t sort (limit / 2))) with B.
    fold short. destruct short; cbn; rewrite ?finish_steps; cbn; rewrite <- HM;
      now apply ends_in_finish.
Qed.

#[local] Arguments dedup : simpl nomatch.
#[local] Arguments sort_newest_first : simpl nomatch.
#[local] Arguments slice_to : simpl nomatch.

Lemma search_mentions_of_body ic s r :
  search_body w q t sort limit cb (start d) = (s, r) ->
  search_mentions w d q t sort limit ic cb
  = (close_browser s,
     match r with
     | Done (Ok l) => Done (Ok l)
     | Done (Raise _) => Done (Ok (all_results s))
     | Escapes b => Escapes b
     end).
Proof.
  unfold search_mentions. fold (start d). now intros ->.
Qed.

(** A [try] block that completes has merged the three strategies and
    returns what the last three statements make of the merge. *)
Lemma search_body_completed s out :
  search_body w q t sort limit cb (start d) = (s, Ok out) ->
  all_results s = M /\ finish M limit = Ok out.
Proof.
  intros H. pose proof search_body_ends as E. rewrite H in E. cbn [fst snd] in E.
  inversion E; subst; try discriminate. split; reflexivity.
Qed.

(** It completes when the callback returns at its four checkpoints, the
    identifiers can be hashed and the timestamps are numbers. *)
Lemma search_body_completes :
  callback_returns cb (1 # 10) = true -> callback_returns cb (4 # 10) = true ->
  callback_returns cb (7 # 10) = true -> callback_returns cb (9 # 10) = true ->
  Forall (fun p => hashable (post_id p) = true) M ->
  Forall (fun p => as_number (created_utc p) <> None) M ->
  exists s out, search_body w q t sort limit cb (start d) = (s, Ok out).
Proof.
  intros H1 H4 H7 H9 Hid Hts. pose proof search_body_ends as E.
  destruct (search_body w q t sort limit cb (start d)) as [s r]. cbn [fst snd] in E.
  destruct (finish_returns M limit Hid Hts) as [out Hout].
  inversion E as [| | | |? ? ? ? Hs Hr]; try congruence.
  exists s, out. unfold M in Hout. congruence.
Qed.

Lemma merged_results_incl p : In p M -> In p J \/ In p B \/ In p F.
Proof.
  unfold M, merged_results. fold J B F. destruct (_ <? _); rewrite ?in_app_iff; tauto.
Qed.

(** What [search_mentions] returns or raises, checkpoint by checkpoint:
    an exception of the callback that escapes leaves the call; any other
    exception makes the call return what is accumulated. *)
Lemma search_mentions_outcome ic :
  snd (search_mentions w d q t sort limit ic cb) =
  match callback_outcome cb (1 # 10) with
  | Escapes b => Escapes b
  | Done (Raise _) => Done (Ok [])
  | Done (Ok _) =>
    match callback_outcome cb (4 # 10) with
    | Escapes b => Escapes b
    | Done (Raise _) => Done (Ok J)
    | Done (Ok _) =>
      match callback_outcome cb (7 # 10) with
      | Escapes b => Escapes b
      | Done (Raise _) => Done (Ok (J ++ B)%list)
      | Done (Ok _) =>
        match callback_outcome cb (9 # 10) with
        | Escapes b => Escapes b
        | Done (Raise _) => Done (Ok M)
        | Done (Ok _) => Done (Ok (match finish M limit with Ok l => l | Raise _ => M end))
        end
      end
    end
  end.
Proof.
  assert (HM : M = if short then ((J ++ B) ++ F)%list else (J ++ B)%list) by reflexivity.
  unfold search_mentions, callback_outcome. open_body. destruct cb as [f|].
  - at_checkpoint f (1 # 10) H1; [|reflexivity..].
    at_checkpoint f (4 # 10) H4; [|reflexivity..].
    at_checkpoint f (7 # 10) H7; [|reflexivity..].
    at_checkpoint f (9 # 10) H9; cbn;
      change (fst (_search_via_browser w d q t sort (limit / 2))) with B;
      fold short; destruct short; cbn; rewrite ?finish_steps; cbn; rewrite <- ?HM;
      try reflexivity; destruct (finish M limit); reflexivity.
  - cbn. change (fst (_search_via_browser w d q t sort (limit / 2))) with B.
    fold short; destruct short; cbn; rewrite ?finish_steps; cbn; rewrite <- ?HM;
      destruct (finish M limit); reflexivity.
Qed.

Lemma callback_returns_outcome p :
  callback_returns cb p = returned (callback_outcome cb p).
Proof.
  unfold callback_returns, callback_outcome. now destruct cb.
Qed.

(** A list is returned unless the callback raises an exception that
    escapes. *)
Lemma search_mentions_returns ic :
  (forall p b, callback_outcome cb p <> Escapes b) ->
  exists out, snd (search_mentions w d q t sort limit ic cb) = Ok out.
Proof.
  intros Hcb. rewrite search_mentions_outcome.
  destruct (callback_outcome cb (1 # 10)) as [[[]|?]|b1] eqn:E1;
    [|eauto|now contradiction (Hcb _ _ E1)].
  destruct (callback_outcome cb (4 # 10)) as [[[]|?]|b4] eqn:E4;
    [|eauto|now contradiction (Hcb _ _ E4)].
  destruct (callback_outcome cb (7 # 10)) as [[[]|?]|b7] eqn:E7;
    [|eauto|now contradiction (Hcb _ _ E7)].
  destruct (callback_outcome cb (9 # 10)) as [[[]|?]|b9] eqn:E9;
    [|eauto|now contradiction (Hcb _ _ E9)].
  eauto.
Qed.

(** Every post returned comes from one of the three strategies. *)
Lemma search_mentions_incl ic out p :
  snd (search_mentions w d q t sort limit ic cb) = Ok out -> In p out ->
  In p J \/ In p B \/ In p F.
Proof.
  rewrite search_mentions_outcome. intros H Hp.
  assert (K : forall l, Done (Ok l) = Done (Ok out) -> In p l) by (now intros l [= ->]).
  destruct (callback_outcome cb (1 # 10)) as [[[]|?]|?]; try discriminate H;
    [|apply K in H; destruct H].
  destruct (callback_outcome cb (4 # 10)) as [[[]|?]|?]; try discriminate H;
    [|apply K in H; auto].
  destruct (callback_outcome cb (7 # 10)) as [[[]|?]|?]; try discriminate H;
    [|apply K in H; apply in_app_iff in H; tauto].
  destruct (callback_outcome cb (9 # 10)) as [[[]|?]|?]; try discriminate H;
    [|apply K in H; now apply merged_results_incl].
  apply K in H. apply merged_results_incl.
  destruct (finish M limit) as [l|e] eqn:Hf; [|assumption].
  eapply finish_incl; eauto.
Qed.

(** With a callback that returns, the run has merged the three strategies
    and returns what the last three statements make of the merge, or the
    merge itself when they raise. *)
Lemma search_mentions_of_merge ic :
  callback_returns cb (1 # 10) = true -> callback_returns cb (4 # 10) = true ->
  callback_returns cb (7 # 10) = true -> callback_returns cb (9 # 10) = true ->
  all_results (fst (search_mentions w d q t sort limit ic cb)) = M
  /\ snd (search_mentions w d q t sort limit ic cb)
     = Ok (match finish M limit with Ok l => l | Raise _ => M end).
Proof.
  intros H1 H4 H7 H9. split.
  - destruct (search_body w q t sort limit cb (start d)) as [s r] eqn:Hb.
    rewrite (search_mentions_of_body ic _ _ Hb). cbn [fst snd].
    rewrite close_browser_all_results.
    pose proof search_body_ends as E. rewrite Hb in E. cbn [fst snd] in E.
    inversion E; subst; try congruence. reflexivity.
  - rewrite search_mentions_outcome. rewrite callback_returns_outcome in H1, H4, H7, H9.
    destruct (callback_outcome cb (1 # 10)) as [[[]|?]|?]; try discriminate H1.
    destruct (callback_outcome cb (4 # 10)) as [[[]|?]|?]; try discriminate H4.
    destruct (callback_outcome cb (7 # 10)) as [[[]|?]|?]; try discriminate H7.
    destruct (callback_outcome cb (9 # 10)) as [[[]|?]|?]; try discriminate H9.
    reflexivity.
Qed.

(** The fan-out is logged exactly when the run reaches the gate and the
    gate lets it run. *)
Lemma search_body_fanout_logged n :
  In (Call Fanout n) (log (fst (search_body w q t sort limit cb (start d))))
  <-> callback_returns cb (1 # 10) = true /\ callback_returns cb (4 # 10) = true
      /\ callback_returns cb (7 # 10) = true
      /\ Z.of_nat (List.length (J ++ B)) < limit / 2 /\ n = limit / 4.
Proof.
  assert (Hshort : short = true <-> Z.of_nat (List.length (J ++ B)) < limit / 2)
    by apply Z.ltb_lt.
  open_body. destruct cb as [f|].
  - at_checkpoint f (1 # 10) H1; [|cbn; intuition (try discriminate; try congruence)..].
    at_checkpoint f (4 # 10) H4; [|cbn; intuition (try discriminate; try congruence)..].
    at_checkpoint f (7 # 10) H7; [|cbn; intuition (try discriminate; try congruence)..].
    at_checkpoint f (9 # 10) H9; cbn;
      change (fst (_search_via_browser w d q t sort (limit / 2))) with B;
      fold short; destruct short; cbn;
      try (destruct (dedup [] [] _) as [u|]; cbn; [destruct (sort_newest_first u); cbn|]);
      intuition (try discriminate; try congruence).
  - cbn.
    change (fst (_search_via_browser w d q t sort (limit / 2))) with B.
    fold short; destruct short; cbn;
      (destruct (dedup [] [] _) as [u|]; cbn; [destruct (sort_newest_first u); cbn|]);
      intuition (try discriminate; try congruence).
Qed.

(** ** Deduplication (C1) *)

(** C1, amended: whenever the [try] block of [search_mentions] completes,
    the list returned holds at most one post per identifier, and each post
    returned is the first post with its identifier in the merged list,
    which is the API results, then the browser results, then the fan-out
    results when the fan-out ran. *)
Theorem dedup_keeps_first_seen ic s out :
  search_body w q t sort limit cb (start d) = (s, Ok out) ->
  snd (search_mentions w d q t sort limit ic cb) = Ok out
  /\ all_results s = merged_results w d q t sort limit
  /\ (forall v, (List.length (filter (fun p => py_eq (post_id p) v) out) <= 1)%nat)
  /\ (forall p, In p out ->
        find (fun r => py_eq (post_id r) (post_id p)) (all_results s) = Some p).
Proof.
  intros H. rewrite (search_mentions_of_body ic _ _ H). cbn [snd].
  destruct (search_body_completed _ _ H) as [Hall Hfin]. rewrite Hall.
  destruct (finish_inv _ _ _ Hfin) as (Hh & _ & sorted & k & Hs & _ & ->).
  pose proof (sort_newest_first_perm _ _ Hs) as Hperm.
  repeat split; auto.
  - intros v. etransitivity; [apply filter_firstn_length|].
    rewrite <- (Permutation_length (filter_perm _ _ _ Hperm)).
    now apply first_seen_count.
  - intros p Hp. apply firstn_incl in Hp.
    apply (Permutation_in _ (Permutation_sym Hperm)) in Hp.
    now apply (first_seen_first M []).
Qed.

(** ** Ordering (C2) *)

(** C2, amended: whenever the [try] block completes and no [created_utc]
    is a list or NaN, the list returned is sorted by [created_utc], newest
    first, and the posts of any one [created_utc] come in the order they
    have in the deduplicated merge, of which they are the first ones. *)
Theorem sorted_newest_first_stably ic s out :
  search_body w q t sort limit cb (start d) = (s, Ok out) ->
  Forall (fun p => is_list (created_utc p) = false) (all_results s) ->
  Forall (fun p => is_nan (created_utc p) = false) (all_results s) ->
  snd (search_mentions w d q t sort limit ic cb) = Ok out
  /\ StronglySorted not_older out
  /\ exists unique_results,
       dedup [] [] (all_results s) = Ok unique_results
       /\ forall k, exists later,
            created_at k unique_results = (created_at k out ++ later)%list.
Proof.
  intros H Hkeys Hnan. rewrite (search_mentions_of_body ic _ _ H). cbn [snd].
  destruct (search_body_completed _ _ H) as [Hall Hfin]. rewrite Hall in *.
  destruct (finish_inv _ _ _ Hfin) as (Hh & Hd & sorted & k & Hs & _ & ->).
  assert (Hkeys' : Forall (fun p => is_list (created_utc p) = false) (first_seen [] M)).
  { rewrite Forall_forall in *. intros p Hp. apply Hkeys. eapply first_seen_incl; eauto. }
  assert (Hnan' : Forall (fun p => is_nan (created_utc p) = false) (first_seen [] M)).
  { rewrite Forall_forall in *. intros p Hp. apply Hnan. eapply first_seen_incl; eauto. }
  split; [reflexivity|]. split.
  - apply firstn_sorted. eapply sort_newest_first_sorted; eauto.
  - exists (first_seen [] M). split; [assumption|]. intros key.
    rewrite <- (sort_newest_first_stable key _ _ Hkeys' Hs).
    apply filter_firstn_prefix.
Qed.

(** ** Truncation (C3) *)

(** C3, amended: whenever the [try] block completes and the limit is not
    negative, the list returned is no longer than the limit. *)
Theorem truncated_to_limit ic s out :
  search_body w q t sort limit cb (start d) = (s, Ok out) ->
  0 <= limit ->
  snd (search_mentions w d q t sort limit ic cb) = Ok out
  /\ Z.of_nat (List.length out) <= limit.
Proof.
  intros H Hlimit. rewrite (search_mentions_of_body ic _ _ H). cbn [snd].
  destruct (search_body_completed _ _ H) as [_ Hfin].
  destruct (finish_inv _ _ _ Hfin) as (_ & _ & sorted & k & _ & -> & _).
  split; [reflexivity|]. now apply slice_to_length.
Qed.

(** ** Errors caught by the aggregator (C7) *)


(** ** The fan-out gate (C9) *)

(** C9, amended: the fan-out is called if and only if the run reaches the
    gate, the callback having returned at the three checkpoints before it,
    and the API and browser results together number fewer than
    [limit // 2]; it is called with [limit // 4], and in a run that reaches
    the gate its results are appended to the first two. *)
Theorem fanout_runs_iff_short ic n :
  let first_two := (json_results w q t sort limit ++ browser_results w d q t sort limit)%list in
  (In (Call Fanout n) (log (fst (search_mentions w d q t sort limit ic cb)))
   <-> callback_returns cb (1 # 10) = true /\ callback_returns cb (4 # 10) = true
       /\ callback_returns cb (7 # 10) = true
       /\ Z.of_nat (List.length first_two) < limit / 2 /\ n = limit / 4)
  /\ (callback_returns cb (1 # 10) = true -> callback_returns cb (4 # 10) = true ->
      callback_returns cb (7 # 10) = true ->
      all_results (fst (search_mentions w d q t sort limit ic cb))
      = if Z.of_nat (List.length first_two) <? limit / 2
        then (first_two ++ _search_multiple_subreddits w q (limit / 4))%list
        else first_two).
Proof.
  intros first_two.
  destruct (search_body w q t sort limit cb (start d)) as [s r] eqn:Hb.
  rewrite (search_mentions_of_body ic _ _ Hb). cbn [fst]. split.
  - rewrite close_browser_log by discriminate.
    pose proof (search_body_fanout_logged n) as L. now rewrite Hb in L.
  - intros H1 H4 H7. rewrite close_browser_all_results.
    pose proof search_body_ends as E. rewrite Hb in E. cbn [fst snd] in E.
    inversion E; try congruence; reflexivity.
Qed.

(** ** What reaches the caller (C4, C6) *)

(** C4, amended: [search_mentions] raises to its caller exactly when the
    callback, at the first checkpoint where it does not return, raises an
    exception that escapes ([except Exception] does not catch it, or the
    handler cannot format it); that exception is the one that reaches the
    caller. With a callback that raises no such exception a list is
    returned, whatever fails. When the browser session cannot be acquired,
    the exception that [init_browser] raises is caught inside
    [_search_via_browser], which contributes no post: it never surfaces. *)
Theorem search_mentions_raises_iff_callback_escapes ic :
  (forall b,
     snd (search_mentions w d q t sort limit ic cb) = Escapes b
     <-> exists k, (k < 4)%nat
           /\ (forall i, (i < k)%nat -> callback_returns cb (nth i checkpoints 0%Q) = true)
           /\ callback_outcome cb (nth k checkpoints 0%Q) = Escapes b)
  /\ ((forall p b, callback_outcome cb p <> Escapes b) ->
      exists out, snd (search_mentions w d q t sort limit ic cb) = Ok out)
  /\ (forall e, init_browser w d = Raise e ->
        _search_via_browser w d q t sort (limit / 2) = ([], d)
        /\ browser_results w d q t sort limit = []).
Proof.
  split; [|split].
  - intros b. rewrite search_mentions_outcome. split.
    + intros H.
      destruct (callback_outcome cb (1 # 10)) as [[[]|?]|b1] eqn:E1; try discriminate H;
        [|exists 0%nat; split; [lia|]; split; [intros; lia|cbn; congruence]].
      destruct (callback_outcome cb (4 # 10)) as [[[]|?]|b4] eqn:E4; try discriminate H;
        [|exists 1%nat; split; [lia|]; split;
          [intros [|i] Hi; [|lia]; cbn; rewrite callback_returns_outcome, E1; reflexivity
          |cbn; congruence]].
      destruct (callback_outcome cb (7 # 10)) as [[[]|?]|b7] eqn:E7; try discriminate H;
        [|exists 2%nat; split; [lia|]; split;
          [intros [|[|i]] Hi; [| |lia]; cbn; rewrite callback_returns_outcome, ?E1, ?E4;
           reflexivity
          |cbn; congruence]].
      destruct (callback_outcome cb (9 # 10)) as [[[]|?]|b9] eqn:E9; try discriminate H.
      exists 3%nat. split; [lia|]. split; [|cbn; congruence].
      intros [|[|[|i]]] Hi; [| | |lia]; cbn; rewrite callback_returns_outcome, ?E1, ?E4, ?E7;
        reflexivity.
    + intros (k & Hk & Hbefore & Hesc).
      assert (H0 : (0 < k)%nat -> callback_outcome cb (1 # 10) = Done (Ok tt)).
      { intros Hlt. specialize (Hbefore 0%nat Hlt). cbn in Hbefore.
        rewrite callback_returns_outcome in Hbefore.
        now destruct (callback_outcome cb (1 # 10)) as [[[]|?]|?]. }
      assert (H1 : (1 < k)%nat -> callback_outcome cb (4 # 10) = Done (Ok tt)).
      { intros Hlt. specialize (Hbefore 1%nat Hlt). cbn in Hbefore.
        rewrite callback_returns_outcome in Hbefore.
        now destruct (callback_outcome cb (4 # 10)) as [[[]|?]|?]. }
      assert (H2 : (2 < k)%nat -> callback_outcome cb (7 # 10) = Done (Ok tt)).
      { intros Hlt. specialize (Hbefore 2%nat Hlt). cbn in Hbefore.
        rewrite callback_returns_outcome in Hbefore.
        now destruct (callback_outcome cb (7 # 10)) as [[[]|?]|?]. }
      destruct k as [|[|[|[|k]]]]; [| | | |lia]; cbn in Hesc.
      * now rewrite Hesc.
      * rewrite H0 by lia. now rewrite Hesc.
      * rewrite H0, H1 by lia. now rewrite Hesc.
      * rewrite H0, H1, H2 by lia. now rewrite Hesc.
  - apply search_mentions_returns.
  - intros e H. unfold browser_results, _search_via_browser. now rewrite H.
Qed.


End Run.

(* ================================================================= *)
(** * Two runs *)

(** In [troubled] the sort meets a [created_utc] that is [None]: the
    comparison raises [TypeError], the [except] clause returns
    [all_results], and the properties of a completed run are lost. In
    [calm] the same search completes. Both are asked for 4 posts, with no
    callback, on a scraper that has no driver yet. *)

(** C1, as the claim states it, fails: the post [a], found by the
    site-wide search and again by the fan-out, is returned twice. *)
Lemma duplicate_ids_after_caught_error :
  exists out,
    snd (search_mentions troubled false "Tesla" "week" "relevance" 4 false None) = Ok out
    /\ List.length (filter (fun p => py_eq (post_id p) (VStr "a")) out) = 2%nat.
Proof.
  eexists. split; [vm_compute; reflexivity|reflexivity].
Qed.

Lemma dedup_keeps_first_seen_witness :
  exists s out,
    search_body calm "Tesla" "week" "relevance" 4 None (start false) = (s, Ok out)
    /\ snd (search_mentions calm false "Tesla" "week" "relevance" 4 false None) = Ok out
    /\ (List.length (filter (fun p => py_eq (post_id p) (VStr "a")) out) <= 1)%nat.
Proof.
  destruct (search_body calm "Tesla" "week" "relevance" 4 None (start false)) as [s [[out|e]|b]] eqn:E;
    [|vm_compute in E; discriminate..].
  exists s, out. split; [reflexivity|].
  destruct (dedup_keeps_first_seen calm false "Tesla" "week" "relevance" 4 None false s out E)
    as (H1 & _ & H2 & _).
  split; [exact H1|exact (H2 (VStr "a"))].
Defined.

(** C2, as the claim states it, fails: the list returned is the unsorted
    merge, and a post created at 200 comes before a post created at 300. *)
Lemma older_first_after_caught_error :
  exists out older newer,
    snd (search_mentions troubled false "Tesla" "week" "relevance" 4 false None) = Ok out
    /\ nth_error out 0 = Some older /\ nth_error out 2 = Some newer
    /\ py_lt (created_utc older) (created_utc newer) = Ok true.
Proof.
  do 3 eexists. split; [vm_compute; reflexivity|].
  split; [reflexivity|]. split; reflexivity.
Qed.

Lemma sorted_newest_first_stably_witness :
  exists s out,
    search_body calm "Tesla" "week" "relevance" 4 None (start false) = (s, Ok out)
    /\ Forall (fun p => is_list (created_utc p) = false) (all_results s)
    /\ Forall (fun p => is_nan (created_utc p) = false) (all_results s)
    /\ StronglySorted not_older out.
Proof.
  destruct (search_body calm "Tesla" "week" "relevance" 4 None (start false)) as [s [[out|e]|b]] eqn:E;
    [|vm_compute in E; discriminate..].
  exists s, out. split; [reflexivity|].
  assert (K : Forall (fun p => is_list (created_utc p) = false) (all_results s)).
  { vm_compute in E. inversion E; subst. repeat constructor. }
  assert (N : Forall (fun p => is_nan (created_utc p) = false) (all_results s)).
  { vm_compute in E. inversion E; subst. repeat constructor. }
  split; [exact K|]. split; [exact N|].
  exact (proj1 (proj2
    (sorted_newest_first_stably calm false "Tesla" "week" "relevance" 4 None false s out E K N))).
Defined.

(** Why NaN is set apart: in [unordered] the run completes, no comparison
    with NaN is true, and the three posts are returned as they came, the
    post created at 1 before the post created at 2. *)
Example nan_timestamp_left_unsorted :
  exists s p q r,
    search_body unordered "Tesla" "week" "relevance" 10 None (start false) = (s, Ok [p; q; r])
    /\ created_utc p = VFloat 1 /\ created_utc q = VNaN /\ created_utc r = VFloat 2
    /\ py_lt (created_utc p) (created_utc r) = Ok true.
Proof.
  do 4 eexists. split; [vm_compute; reflexivity|]. repeat split.
Qed.

(** C3, as the claim states it, fails: with a limit of 4, the six posts
    accumulated are returned. *)
Lemma longer_than_limit_after_caught_error :
  exists out,
    snd (search_mentions troubled false "Tesla" "week" "relevance" 4 false None) = Ok out
    /\ 4 < Z.of_nat (List.length out).
Proof.
  eexists. split; [vm_compute; reflexivity|]. cbn. lia.
Qed.

Lemma truncated_to_limit_witness :
  exists s out,
    search_body calm "Tesla" "week" "relevance" 4 None (start false) = (s, Ok out)
    /\ snd (search_mentions calm false "Tesla" "week" "relevance" 4 false None) = Ok out
    /\ Z.of_nat (List.length out) <= 4.
Proof.
  destruct (search_body calm "Tesla" "week" "relevance" 4 None (start false)) as [s [[out|e]|b]] eqn:E;
    [|vm_compute in E; discriminate..].
  exists s, out. split; [reflexivity|].
  apply (truncated_to_limit calm false "Tesla" "week" "relevance" 4 None false s out E).
  lia.
Defined.


(** C9, as the claim states it, fails: with a callback that raises at
    0.7 the run stops before the gate, and the fan-out is not called
    although the API and browser results, none here, are fewer than
    [limit // 2]. *)
Lemma fanout_skipped_when_callback_raises :
  Z.of_nat (List.length (json_results offline "Tesla" "week" "relevance" 10
                         ++ browser_results offline false "Tesla" "week" "relevance" 10))
    < 10 / 2
  /\ ~ In (Call Fanout (10 / 4))
          (log (fst (search_mentions offline false "Tesla" "week" "relevance" 10 false
                       (Some (stop_at (7 # 10)))))).
Proof.
  split; [reflexivity|]. vm_compute. intuition discriminate.
Qed.

Lemma fanout_runs_iff_short_witness :
  callback_returns None (7 # 10) = true
  /\ In (Call Fanout 1)
        (log (fst (search_mentions calm false "Tesla" "week" "relevance" 4 false None))).
Proof.
  split; [reflexivity|].
  apply (proj2 (proj1 (fanout_runs_iff_short calm false "Tesla" "week" "relevance" 4 None
                         false 1))).
  repeat split.
Defined.

(** C4, as the claim states it, fails: with no browser engine,
    [init_browser] raises and [search_mentions] returns a list all the
    same. *)
Lemma no_browser_engine_no_raise :
  init_browser offline false = Raise WebDriverException
  /\ snd (search_mentions offline false "Tesla" "week" "relevance" 10 false None) = Ok [].
Proof.
  split; reflexivity.
Qed.

(** A callback that calls [sys.exit] at 0.4: the exception reaches the
    caller, with or without a browser engine. *)
Lemma search_mentions_raises_iff_callback_escapes_witness :
  init_browser offline false = Raise WebDriverException
  /\ snd (search_mentions offline false "Tesla" "week" "relevance" 10 false
            (Some (exit_at (4 # 10)))) = Escapes SystemExit
  /\ browser_results offline false "Tesla" "week" "relevance" 10 = [].
Proof.
  destruct (search_mentions_raises_iff_callback_escapes
              offline false "Tesla" "week" "relevance" 10 (Some (exit_at (4 # 10))) false)
    as (H1 & _ & H3).
  split; [reflexivity|]. split; [|exact (proj2 (H3 WebDriverException eq_refl))].
  apply (proj2 (H1 SystemExit)). exists 1%nat. split; [lia|]. split; [|reflexivity].
  intros [|i] Hi; [reflexivity|lia].
Defined.



(* ================================================================= *)
(** * The normalisers and parsers *)

(** ** The normaliser (C5) *)

(** C5, as the claim states it, fails on [permalink]: the site prefix is
    put before the default, so an empty record gets the bare prefix and
    not the empty string. *)
Lemma permalink_of_empty_record :
  exists p,
    _extract_post_data offline (VDict []) = Ok p
    /\ get p "permalink" = VStr "https://www.reddit.com"
    /\ get p "permalink" <> VStr "".
Proof.
  eexists. split; [reflexivity|]. split; [reflexivity|discriminate].
Qed.

(** C5, amended: for a record that has none of the fields,
    [_extract_post_data] returns a post with [score] 0, [num_comments] 0,
    [upvote_ratio] 0.0, [is_self] false, [created_utc] 0, [author]
    ["[deleted]"], every key present, the empty string for [id], [title],
    [selftext], [subreddit], [url] and [domain], and the bare site prefix
    for [permalink]. *)
Theorem extract_post_data_defaults w d :
  (forall k, In k post_fields -> lookup k d = None) ->
  exists p,
    _extract_post_data w (VDict d) = Ok p
    /\ get p "score" = VInt 0 /\ get p "num_comments" = VInt 0
    /\ get p "upvote_ratio" = VFloat 0 /\ get p "is_self" = VBool false
    /\ get p "created_utc" = VInt 0 /\ get p "author" = VStr "[deleted]"
    /\ (forall k, In k post_fields -> lookup k p <> None)
    /\ (forall k, In k ["id"; "title"; "selftext"; "subreddit"; "url"; "domain"] ->
          get p k = VStr "")
    /\ get p "permalink" = VStr "https://www.reddit.com".
Proof.
  intros H. eexists. split; [reflexivity|].
  unfold get_default.
  rewrite !H by (cbn; tauto).
  repeat split; try reflexivity.
  - intros k Hk. cbn in Hk.
    repeat (destruct Hk as [<-|Hk]; [cbn; discriminate|]). destruct Hk.
  - intros k Hk. cbn in Hk.
    repeat (destruct Hk as [<-|Hk]; [reflexivity|]). destruct Hk.
Qed.

Lemma extract_post_data_defaults_witness :
  exists p,
    _extract_post_data offline (VDict [("name", VStr "t3_x")]) = Ok p
    /\ get p "author" = VStr "[deleted]"
    /\ get p "permalink" = VStr "https://www.reddit.com".
Proof.
  destruct (extract_post_data_defaults offline [("name", VStr "t3_x")]) as (p & H & Hrest).
  - intros k Hk. cbn in Hk.
    repeat (destruct Hk as [<-|Hk]; [reflexivity|]). destruct Hk.
  - exists p. split; [exact H|]. split; [apply Hrest|apply Hrest].
Defined.

(** ** The score parser (C8) *)

Lemma contains_char_app c p q :
  contains_char c (p ++ q) = contains_char c p || contains_char c q.
Proof.
  induction p as [|a p IH]; cbn; auto. now rewrite IH, orb_assoc.
Qed.

Lemma remove_char_absent c p : contains_char c p = false -> remove_char c p = p.
Proof.
  induction p as [|a p IH]; cbn; auto. intros H. apply orb_false_iff in H as [Ha Hp].
  rewrite Ha. now rewrite IH.
Qed.

Lemma remove_char_app c p q : remove_char c (p ++ q) = remove_char c p ++ remove_char c q.
Proof.
  induction p as [|a p IH]; cbn; auto. destruct (Ascii.eqb a c); cbn; now rewrite IH.
Qed.

(** The examples of the specification. *)
Example parse_score_examples :
  _parse_score "1.2k" = Ok 1200 /\ _parse_score "45" = Ok 45
  /\ _parse_score "12,345" = Ok 12345 /\ _parse_score "Vote" = Ok 0.
Proof.
  repeat split; vm_compute; reflexivity.
Qed.

(** The bare [except] leaves no way to raise, and turns a text that
    cannot be converted into 0. *)
Lemma parse_score_never_raises score_text : exists n, _parse_score score_text = Ok n.
Proof.
  unfold _parse_score. destruct (parse_score_body score_text); eauto.
Qed.

Lemma parse_score_unparsable score_text e :
  parse_score_body score_text = Raise e -> _parse_score score_text = Ok 0.
Proof.
  unfold _parse_score. now intros ->.
Qed.

(** What the code does with a [k] suffix: a text that, in lower case and
    without commas, is a prefix followed by [k] is parsed as
    [int(float(prefix) * 1000)], the product being the binary64 one and
    [int] truncating it. *)
Lemma parse_score_k_suffix score_text prefix x :
  remove_char "," (lower score_text) = prefix ++ "k" ->
  contains_char "k" prefix = false ->
  py_float prefix = Ok x ->
  _parse_score score_text
  = match int_of_float (float_times_1000 x) with Ok n => Ok n | Raise _ => Ok 0 end.
Proof.
  intros Ht Hk Hx. unfold _parse_score, parse_score_body. rewrite Ht.
  rewrite contains_char_app, remove_char_app, (remove_char_absent _ _ Hk).
  cbn [contains_char remove_char Ascii.eqb Bool.eqb]. rewrite orb_true_r.
  replace (prefix ++ "") with prefix.
  - rewrite Hx. cbn [rbind]. reflexivity.
  - clear. induction prefix; cbn; congruence.
Qed.

(** C8: the examples of the claim hold, the parser never raises and an
    unparsable text gives 0, but a text with a [k] suffix is not always
    parsed as its prefix multiplied by 1000. The float nearest to 32.3 is
    below it, its binary64 product by 1000 is the float just below 32300
    (32300 - 2^-38), and [int] truncates: ["32.3k"] is parsed as 32299. *)
Theorem parse_score_k_suffix_off_by_one :
  exists x,
    py_float "32.3" = Ok x
    /\ float_times_1000 x = S754_finite false (32300 * 2 ^ 38 - 1) (-38)
    /\ _parse_score "32.3k" = Ok 32299.
Proof.
  eexists. split; [vm_compute; reflexivity|]. split; vm_compute; reflexivity.
Qed.

(** ** Posts without an identifier (C10) *)

(** C10: a record with no [id] is normalised to a post whose identifier
    is the empty string, and of all the posts with that identifier the
    deduplication keeps the first one only; so does the list returned by a
    run that completes, when truncation leaves it that post. *)
Theorem idless_posts_collapse :
  (forall w d, lookup "id" d = None ->
     exists p, _extract_post_data w (VDict d) = Ok p /\ post_id p = VStr "")
  /\ (forall merged unique_results,
        dedup [] [] merged = Ok unique_results ->
        filter idless unique_results = firstn 1 (filter idless merged))
  /\ (forall w d q t sort limit cb s out,
        search_body w q t sort limit cb (start d) = (s, Ok out) ->
        filter idless out = []
        \/ filter idless out = firstn 1 (filter idless (all_results s))).
Proof.
  assert (D : forall merged unique_results,
             dedup [] [] merged = Ok unique_results ->
             filter idless unique_results = firstn 1 (filter idless merged)).
  { intros merged u H. apply dedup_first_seen in H as [Hh ->]. cbn [app].
    now apply first_seen_filter. }
  split; [|split; [exact D|]].
  - intros w d H. eexists. split; [reflexivity|].
    unfold post_id, get, get_default. cbn. now rewrite H.
  - intros w d q t sort limit cb s out H.
    destruct (search_body_completed _ _ _ _ _ _ _ _ _ H) as [Hall Hfin].
    rewrite Hall. set (merged := merged_results w d q t sort limit) in *.
    destruct (finish_inv _ _ _ Hfin) as (_ & Hd & sorted & k & Hs & _ & ->).
    pose proof (filter_perm idless _ _ (sort_newest_first_perm _ _ Hs)) as P.
    rewrite (D _ _ Hd) in P.
    destruct (filter_firstn_prefix idless sorted k) as [later Hl].
    destruct (filter idless merged) as [|p rest]; cbn [firstn] in *.
    + apply Permutation_nil in P. rewrite P in Hl.
      destruct (filter idless (firstn k sorted)); [auto|discriminate].
    + apply Permutation_length_1_inv in P. rewrite P in Hl.
      destruct (filter idless (firstn k sorted)) as [|x l]; [auto|].
      right. inversion Hl as [[Hx Hnil]]. symmetry in Hnil.
      apply app_eq_nil in Hnil as [-> _]. reflexivity.
Qed.

Lemma idless_posts_collapse_witness :
  exists p1 p2,
    _extract_post_data offline (VDict [("title", VStr "first")]) = Ok p1
    /\ _extract_post_data offline (VDict [("title", VStr "second")]) = Ok p2
    /\ post_id p1 = VStr "" /\ post_id p2 = VStr ""
    /\ dedup [] [] [p1; p2] = Ok [p1]
    /\ filter idless [p1] = firstn 1 (filter idless [p1; p2]).
Proof.
  destruct idless_posts_collapse as (N & D & _).
  destruct (N offline [("title", VStr "first")] eq_refl) as (p1 & E1 & I1).
  destruct (N offline [("title", VStr "second")] eq_refl) as (p2 & E2 & I2).
  exists p1, p2. repeat (split; [assumption|]).
  assert (Hd : dedup [] [] [p1; p2] = Ok [p1]).
  { vm_compute in E1, E2. inversion E1; inversion E2; subst. reflexivity. }
  split; [exact Hd|]. exact (D [p1; p2] [p1] Hd).
Defined.

(* ================================================================= *)
(** * Further properties of the scraper *)

(** ** The normaliser and the listings *)

(** Whatever the record holds, [_extract_post_data] builds a post with
    the thirteen keys, in the order of its dictionary; a field that the
    record has is copied as it is, except [permalink], which gets the site
    in front of it. *)
Theorem extract_post_data_keeps_fields w d :
  exists p,
    _extract_post_data w (VDict d) = Ok p
    /\ map fst p = post_fields
    /\ (forall k v, In k post_fields -> k <> "permalink" ->
          lookup k d = Some v -> get p k = v)
    /\ (forall s, lookup "permalink" d = Some (VStr s) ->
          get p "permalink" = VStr ("https://www.reddit.com" ++ s)).
Proof.
  eexists. split; [reflexivity|]. split; [reflexivity|]. split.
  - intros k v Hk Hp Hv. cbn in Hk.
    repeat (destruct Hk as [<-|Hk];
            [try congruence; unfold get, get_default; cbn; now rewrite Hv|]).
    destruct Hk.
  - intros s Hs. unfold get, get_default. cbn. now rewrite Hs.
Qed.

(** The loop appends to what it was given. *)
Lemma extract_children_acc w children : forall acc,
  extract_children w children acc = (acc ++ extract_children w children [])%list.
Proof.
  induction children as [|c rest IH]; intros acc; cbn.
  - now rewrite app_nil_r.
  - destruct (_ <- getitem c "data" ;; _)%py as [p|e].
    + rewrite (IH (acc ++ [p])%list), (IH [p]). now rewrite <- app_assoc.
    + now rewrite app_nil_r.
Qed.

Lemma extract_children_good w good : forall rest,
  Forall (fun c => child_record c <> None) good ->
  extract_children w (good ++ rest)%list []
  = (extract_children w good [] ++ extract_children w rest [])%list
  /\ List.length (extract_children w good []) = List.length good.
Proof.
  induction good as [|c good IH]; intros rest H; [auto|].
  inversion H as [|? ? Hc Hgood]; subst. cbn.
  unfold child_record in Hc.
  destruct (getitem c "data") as [[]|]; try congruence. cbn.
  destruct (IH rest Hgood) as [E L].
  rewrite (extract_children_acc w (good ++ rest)%list), (extract_children_acc w good), E.
  split; [now rewrite <- app_assoc|]. rewrite length_app, L. reflexivity.
Qed.

Lemma extract_children_bad w bad rest :
  child_record bad = None -> extract_children w (bad :: rest) [] = [].
Proof.
  unfold child_record. cbn. destruct (getitem bad "data") as [[]|]; cbn; congruence.
Qed.

(** A child that has no record cuts the listing short: the posts of the
    children before it are kept, one per child, and the children after it
    are not read. *)
Theorem malformed_child_cuts_listing w data good bad rest :
  listing_children data = Ok (good ++ bad :: rest)%list ->
  Forall (fun c => child_record c <> None) good ->
  child_record bad = None ->
  listing_posts w (Ok data) = extract_children w good []
  /\ List.length (listing_posts w (Ok data)) = List.length good.
Proof.
  intros Hd Hgood Hbad. unfold listing_posts. cbn [rbind]. rewrite Hd.
  destruct (extract_children_good w good (bad :: rest) Hgood) as [-> L].
  rewrite (extract_children_bad w bad rest Hbad), app_nil_r. auto.
Qed.

Lemma malformed_child_cuts_listing_witness :
  exists posts,
    listing_posts offline
      (Ok (listing [child (record "a" (VInt 1)); VStr "no record"; child (record "b" (VInt 2))]))
    = posts /\ List.length posts = 1%nat.
Proof.
  eexists. split; [reflexivity|].
  exact (proj2 (malformed_child_cuts_listing offline
    (listing [child (record "a" (VInt 1)); VStr "no record"; child (record "b" (VInt 2))])
    [child (record "a" (VInt 1))] (VStr "no record") [child (record "b" (VInt 2))]
    eq_refl ltac:(repeat constructor; discriminate) eq_refl)).
Defined.

Lemma extract_children_fields w children : forall acc p,
  In p (extract_children w children acc) ->
  In p acc \/ exists d, _extract_post_data w (VDict d) = Ok p.
Proof.
  induction children as [|c rest IH]; intros acc p; cbn; [auto|].
  destruct (getitem c "data") as [v|e]; cbn; [|auto].
  destruct v; cbn; auto.
  intros H. apply IH in H as [H|H]; [|auto].
  apply in_app_iff in H as [H|[<-|[]]]; [auto|]. right. eexists. reflexivity.
Qed.

Lemma listing_posts_fields w response p :
  In p (listing_posts w response) -> exists d, _extract_post_data w (VDict d) = Ok p.
Proof.
  unfold listing_posts. destruct (_ <- response ;; _)%py; [|intros []].
  intros H. apply extract_children_fields in H as [[]|H]. exact H.
Qed.

(** ** The browser strategy *)

Lemma digit_facts c :
  is_digit c = true ->
  is_space c = false /\ Ascii.eqb c "_" = false /\ Ascii.eqb c "," = false
  /\ Ascii.eqb c "k" = false /\ lower_char c = c.
Proof.
  destruct c as [[] [] [] [] [] [] [] []]; vm_compute; intros H; try discriminate H;
    repeat split.
Qed.

Lemma take_sign_digit c l : is_digit c = true -> take_sign (c :: l) = (false, c :: l).
Proof.
  destruct c as [[] [] [] [] [] [] [] []]; intros H; try discriminate H; reflexivity.
Qed.

Lemma drop_underscores_after_digit p c l :
  is_digit p = true -> Ascii.eqb c "_" = false ->
  drop_underscores (Some p) (c :: l) = option_map (cons c) (drop_underscores (Some c) l).
Proof.
  intros Hp Hc. cbn [drop_underscores]. rewrite Hc.
  destruct p as [[] [] [] [] [] [] [] []]; try discriminate Hp; reflexivity.
Qed.

Lemma drop_underscores_digits l : forall p,
  is_digit p = true -> forallb is_digit l = true -> drop_underscores (Some p) l = Some l.
Proof.
  induction l as [|c l IH]; intros p Hp Hl.
  - destruct p as [[] [] [] [] [] [] [] []]; try discriminate Hp; reflexivity.
  - cbn in Hl. apply andb_true_iff in Hl as [Hc Hl].
    destruct (digit_facts c Hc) as (_ & Hu & _).
    rewrite (drop_underscores_after_digit p c l Hp Hu), (IH c Hc Hl). reflexivity.
Qed.

Lemma drop_underscores_number c l :
  forallb is_digit (c :: l) = true -> drop_underscores None (c :: l) = Some (c :: l).
Proof.
  intros Hl. cbn in Hl. apply andb_true_iff in Hl as [Hc Hl].
  destruct (digit_facts c Hc) as (_ & Hu & _).
  cbn [drop_underscores]. rewrite Hu, (drop_underscores_digits l c Hc Hl). reflexivity.
Qed.

Lemma drop_spaces_digits l : forallb is_digit l = true -> drop_spaces l = l.
Proof.
  destruct l as [|c l]; [reflexivity|]. cbn. intros H. apply andb_true_iff in H as [Hc _].
  destruct (digit_facts c Hc) as (Hs & _). now rewrite Hs.
Qed.

Lemma strip_digits l : forallb is_digit l = true -> strip l = l.
Proof.
  intros H. unfold strip. rewrite (drop_spaces_digits l H).
  rewrite drop_spaces_digits; [apply rev_involutive|].
  rewrite forallb_forall in *. intros c Hc. apply H. now apply in_rev.
Qed.

(** [int] on a run of digits: the number, or [ValueError] for more
    digits than [max_str_digits]. *)
Lemma py_int_digits s :
  list_ascii_of_string s <> [] -> forallb is_digit (list_ascii_of_string s) = true ->
  py_int s = if Z.of_nat (List.length (list_ascii_of_string s)) <=? max_str_digits
             then Ok (digits_value (list_ascii_of_string s))
             else Raise ValueError.
Proof.
  intros Hn Hd. unfold py_int. rewrite (strip_digits _ Hd).
  destruct (list_ascii_of_string s) as [|c l]; [congruence|].
  assert (Hc : is_digit c = true) by (cbn in Hd; now apply andb_true_iff in Hd as [? _]).
  rewrite (take_sign_digit c l Hc), (drop_underscores_number c l Hd), Hd. reflexivity.
Qed.

Lemma span_digits_digits l : forallb is_digit (fst (span_digits l)) = true.
Proof.
  induction l as [|c l IH]; cbn; [reflexivity|].
  destruct (is_digit c) eqn:E; [|reflexivity].
  destruct (span_digits l). cbn in *. now rewrite E, IH.
Qed.

Lemma digit_value_range c : is_digit c = true -> 0 <= digit_value c <= 9.
Proof.
  unfold is_digit, digit_value. rewrite andb_true_iff, !N.leb_le. intros [H1 H2]. lia.
Qed.

Lemma digits_value_acc l : forall acc,
  forallb is_digit l = true -> 0 <= acc ->
  0 <= fold_left (fun a c => 10 * a + digit_value c) l acc.
Proof.
  induction l as [|c l IH]; cbn [fold_left forallb]; intros acc H Hacc; [assumption|].
  apply andb_true_iff in H as [Hc Hl]. apply IH; [assumption|].
  pose proof (digit_value_range c Hc). lia.
Qed.

Lemma digits_value_nonneg l : forallb is_digit l = true -> 0 <= digits_value l.
Proof.
  intros H. apply digits_value_acc; [assumption|lia].
Qed.

Lemma parse_comment_count_nonneg text :
  exists n, _parse_comment_count text = Ok n /\ 0 <= n.
Proof.
  unfold _parse_comment_count.
  pose proof (span_digits_digits
                (drop_non_digits (list_ascii_of_string (remove_char "," text)))) as H.
  destruct (fst (span_digits _)) as [|c ds]; [exists 0; split; [reflexivity|lia]|].
  rewrite py_int_digits; rewrite list_ascii_of_string_of_list_ascii; [|discriminate|exact H].
  destruct (_ <=? _); eexists; (split; [reflexivity|]); [now apply digits_value_nonneg|lia].
Qed.

(** A container is dropped exactly when one of its five parts cannot be
    read; a score or a comment count that cannot be parsed does not drop
    it. *)
Theorem browser_post_dropped_iff w i e :
  _extract_browser_post_data w i e = None
  <-> h3 e = None \/ subreddit_name e = None \/ vote_count e = None
      \/ comment_count e = None \/ title_link e = None.
Proof.
  unfold _extract_browser_post_data.
  destruct (h3 e), (subreddit_name e), (vote_count e) as [votes|],
    (comment_count e) as [comments|], (title_link e); try tauto.
  destruct (parse_score_never_raises votes) as [sc ->].
  destruct (parse_comment_count_nonneg comments) as (n & -> & _).
  split; [discriminate|]. intros [H|[H|[H|[H|H]]]]; discriminate.
Qed.

Lemma extract_elements_from w posts : forall i p,
  In p (extract_elements w i posts) ->
  exists j e, In e posts /\ _extract_browser_post_data w j e = Some p.
Proof.
  induction posts as [|e rest IH]; intros i p; cbn; [tauto|].
  destruct (_extract_browser_post_data w i e) as [p'|] eqn:E; cbn.
  - intros [<-|H]; [eauto|]. apply IH in H as (j & e' & He & H). eauto.
  - intros H. apply IH in H as (j & e' & He & H). eauto.
Qed.

Lemma extract_elements_length w posts : forall i,
  (List.length (extract_elements w i posts) <= List.length posts)%nat.
Proof.
  induction posts as [|e rest IH]; intros i; cbn; [lia|].
  destruct (_extract_browser_post_data w i e); cbn; specialize (IH (S i)); lia.
Qed.

Lemma browser_post_typed w i e p :
  _extract_browser_post_data w i e = Some p ->
  map fst p = browser_fields
  /\ post_id p = VStr ("browser_" ++ decimal (randint w i))
  /\ created_utc p = VInt (clock w i)
  /\ (exists score, get p "score" = VInt score)
  /\ (exists n, get p "num_comments" = VInt n /\ 0 <= n)
  /\ get p "url" = get p "permalink".
Proof.
  unfold _extract_browser_post_data.
  destruct (h3 e), (subreddit_name e), (vote_count e) as [votes|],
    (comment_count e) as [comments|], (title_link e); try discriminate.
  destruct (parse_score_never_raises votes) as [sc ->].
  destruct (parse_comment_count_nonneg comments) as (n & -> & Hn).
  intros H. inversion H; subst.
  split; [reflexivity|]. split; [reflexivity|]. split; [reflexivity|].
  split; [eexists; reflexivity|]. split; [exists n; split; [reflexivity|assumption]|].
  reflexivity.
Qed.

Lemma browser_fields_all p : map fst p = browser_fields -> has_all_fields p = true.
Proof.
  unfold browser_fields. intros H.
  do 13 (destruct p as [|[? ?] p]; [discriminate|]). destruct p; [|discriminate].
  cbn in H. inversion H; subst. reflexivity.
Qed.

(** Every post of the browser strategy has the thirteen keys of an API
    post, a string identifier made of [browser_] and the number drawn, an
    integer [created_utc], an integer score, a comment count that is not
    negative, and its [url] equal to its [permalink]. *)
Theorem browser_posts_well_typed w d q t sort limit p :
  In p (fst (_search_via_browser w d q t sort limit)) ->
  has_all_fields p = true
  /\ (exists n, post_id p = VStr ("browser_" ++ decimal n))
  /\ (exists seconds, created_utc p = VInt seconds)
  /\ (exists score, get p "score" = VInt score)
  /\ (exists n, get p "num_comments" = VInt n /\ 0 <= n)
  /\ get p "url" = get p "permalink".
Proof.
  unfold _search_via_browser.
  destruct (init_browser w d); [|intros []].
  destruct (load_page w q sort t) as [posts|]; [|intros []]. cbn [fst].
  intros H. apply extract_elements_from in H as (j & e & _ & H).
  destruct (browser_post_typed _ _ _ _ H) as (Hk & Hid & Hts & Hsc & Hn & Hurl).
  split; [now apply browser_fields_all|]. repeat split; eauto.
Qed.

(** The browser strategy never returns more posts than it is asked for,
    nor more than the page has containers. *)
Theorem browser_results_bounded w d q t sort limit :
  0 <= limit ->
  Z.of_nat (List.length (fst (_search_via_browser w d q t sort limit))) <= limit
  /\ (forall posts, load_page w q sort t = Ok posts ->
        (List.length (fst (_search_via_browser w d q t sort limit)) <= List.length posts)%nat).
Proof.
  intros Hl. unfold _search_via_browser.
  destruct (init_browser w d); cbn; [|split; [lia|intros; lia]].
  destruct (load_page w q sort t) as [posts|]; cbn; [|split; [lia|discriminate]].
  pose proof (extract_elements_length w (slice_to posts limit) 0) as H1.
  pose proof (slice_to_length posts limit Hl) as H2.
  split; [lia|]. intros ? [= <-].
  destruct (slice_to_firstn posts limit) as [k Hk]. rewrite Hk in *.
  rewrite length_firstn in H1. lia.
Qed.

Lemma browser_posts_well_typed_witness :
  exists p,
    In p (fst (_search_via_browser rendered false "Tesla" "week" "relevance" 5))
    /\ get p "score" = VInt 32299
    /\ has_all_fields p = true.
Proof.
  eexists. split; [left; reflexivity|]. split; [reflexivity|].
  refine (proj1 (browser_posts_well_typed rendered false "Tesla" "week" "relevance" 5 _ _)).
  left. reflexivity.
Defined.

Lemma browser_results_bounded_witness :
  0 <= 1
  /\ Z.of_nat (List.length (fst (_search_via_browser rendered false "Tesla" "week" "relevance" 1)))
     <= 1.
Proof.
  split; [lia|].
  apply (browser_results_bounded rendered false "Tesla" "week" "relevance" 1). lia.
Defined.

(* ================================================================= *)
(** ** What a run does, in order *)

Lemma quit_is_last (body tail pre post : list event) :
  ~ In Quit body -> tail = [] \/ tail = [Quit] ->
  (body ++ tail = pre ++ Quit :: post)%list -> post = [].
Proof.
  intros Hb [->| ->] H.
  - rewrite app_nil_r in H. exfalso. apply Hb. rewrite H, in_app_iff. cbn. auto.
  - destruct (exists_last (l := Quit :: post)) as (l' & x & Hl); [discriminate|].
    destruct post as [|e post]; [reflexivity|]. exfalso.
    destruct l' as [|e' l']; [discriminate|]. cbn in Hl. injection Hl as <- Hl.
    rewrite Hl in H. change (Quit :: l' ++ [x])%list with ((Quit :: l') ++ [x])%list in H.
    rewrite app_assoc in H. apply app_inj_tail in H as [H _].
    apply Hb. rewrite H, in_app_iff. cbn. auto.
Qed.

Section Events.

Variables (w : world) (d : bool) (q t sort : string) (limit : Z).
Variable cb : option (Q -> outcome unit).

Let J := json_results w q t sort limit.
Let B := browser_results w d q t sort limit.
Let short := Z.of_nat (List.length (J ++ B)) <? limit / 2.

(** The report of a checkpoint, when there is a callback. *)
Let reported (p : Q) : list event :=
  match cb with Some _ => [Progress p] | None => [] end.

(** The driver is set once the browser strategy has run, unless the
    launch failed. *)
Let opened : bool := d || is_ok (launch_chrome w).

Lemma browser_leaves_driver n : snd (_search_via_browser w d q t sort n) = opened.
Proof.
  unfold _search_via_browser, init_browser, opened.
  destruct d; cbn.
  - destruct (load_page w q sort t); reflexivity.
  - destruct (launch_chrome w) as [[]|]; cbn; [|reflexivity].
    destruct (load_page w q sort t); reflexivity.
Qed.

#[local] Arguments _search_via_browser : simpl never.
#[local] Arguments _search_via_json_api : simpl never.
#[local] Arguments _search_multiple_subreddits : simpl never.
#[local] Arguments dedup : simpl never.
#[local] Arguments sort_newest_first : simpl never.
#[local] Arguments slice_to : simpl never.

(** The whole log of a call, checkpoint by checkpoint. *)
Lemma search_mentions_log ic :
  log (fst (search_mentions w d q t sort limit ic cb)) =
  ((reported (1 # 10) ++
    (if callback_returns cb (1 # 10) then
       Call JsonApi (limit / 2) :: reported (4 # 10) ++
       (if callback_returns cb (4 # 10) then
          Call Browser (limit / 2) :: reported (7 # 10) ++
          (if callback_returns cb (7 # 10) then
             (if short then [Call Fanout (limit / 4)] else []) ++ reported (9 # 10)
           else [])
        else [])
     else [])) ++
   (if (if callback_returns cb (1 # 10) && callback_returns cb (4 # 10) then opened else d)
    then [Quit] else []))%list.
Proof.
  pose proof (browser_leaves_driver (limit / 2)) as Hd.
  unfold search_mentions, search_body, callback_returns, report, browser_step,
    close_browser, reported.
  fold (json_results w q t sort limit); fold J.
  destruct cb as [f|].
  - destruct (f (1 # 10)) as [[[]|?]|?]; [|cbn; destruct d; reflexivity..].
    destruct (f (4 # 10)) as [[[]|?]|?]; [|cbn; destruct d; reflexivity..].
    destruct (f (7 # 10)) as [[[]|?]|?]; [|cbn; rewrite Hd; destruct opened; reflexivity..].
    destruct (f (9 # 10)) as [[[]|?]|?]; cbn;
      change (fst (_search_via_browser w d q t sort (limit / 2))) with B;
      fold short; destruct short; cbn;
      try (destruct (dedup [] [] _) as [u|]; cbn; [destruct (sort_newest_first u); cbn|]);
      rewrite Hd; destruct opened; reflexivity.
  - cbn. change (fst (_search_via_browser w d q t sort (limit / 2))) with B.
    fold short; destruct short; cbn;
      (destruct (dedup [] [] _) as [u|]; cbn; [destruct (sort_newest_first u); cbn|]);
      rewrite Hd; destruct opened; reflexivity.
Qed.

#[local] Arguments dedup : simpl nomatch.
#[local] Arguments sort_newest_first : simpl nomatch.
#[local] Arguments slice_to : simpl nomatch.

Lemma search_mentions_driver ic :
  driver (fst (search_mentions w d q t sort limit ic cb)) = false.
Proof.
  unfold search_mentions.
  destruct (search_body w q t sort limit cb _) as [s r]. cbn. unfold close_browser.
  destruct (driver s) eqn:H; [reflexivity|exact H].
Qed.

(** Decide the callback at the four checkpoints, the gate and the driver. *)
Ltac decide_run :=
  unfold reported, callback_returns, opened;
  destruct cb as [f|];
  [ destruct (f (1 # 10)) as [[[]|?]|?] eqn:H1;
    destruct (f (4 # 10)) as [[[]|?]|?] eqn:H4;
    destruct (f (7 # 10)) as [[[]|?]|?] eqn:H7;
    destruct (f (9 # 10)) as [[[]|?]|?] eqn:H9 | ];
  destruct short eqn:Hshort; destruct d; destruct (launch_chrome w) as [[]|?];
  cbn.

(** The browser is released on every way out of [search_mentions]: the
    scraper holds no driver when the call returns; the browser is quit
    exactly when the scraper held one before the call or the run reached
    the browser strategy and the launch succeeded; and nothing is
    reported or called after the browser is quit. *)
Theorem browser_released_on_every_exit ic :
  let r := search_mentions w d q t sort limit ic cb in
  driver (fst r) = false
  /\ (In Quit (log (fst r))
      <-> d = true
          \/ (callback_returns cb (1 # 10) = true /\ callback_returns cb (4 # 10) = true
              /\ is_ok (launch_chrome w) = true))
  /\ (forall before after, log (fst r) = (before ++ Quit :: after)%list -> after = []).
Proof.
  cbn zeta. split; [apply search_mentions_driver|]. rewrite search_mentions_log. split.
  - decide_run; intuition (try discriminate; try congruence).
  - intros before after. apply quit_is_last.
    + decide_run; intuition discriminate.
    + decide_run; auto.
Qed.

(** The callback is given 0.1, 0.4, 0.7 and 0.9 in this order, each at
    most once, up to the first one at which it raises; without a callback
    nothing is reported. *)
Theorem progress_reported_in_order ic :
  exists k,
    progress_fractions (log (fst (search_mentions w d q t sort limit ic cb)))
    = firstn k checkpoints
    /\ (k = 0%nat <-> cb = None)
    /\ (forall i, (S i < k)%nat -> callback_returns cb (nth i checkpoints 0%Q) = true)
    /\ ((0 < k < 4)%nat -> callback_returns cb (nth (k - 1) checkpoints 0%Q) = false).
Proof.
  rewrite search_mentions_log.
  assert (K : forall i (P : Prop), (S i < 0)%nat -> P) by (intros; lia).
  decide_run.
  all: try (exists 4%nat; split; [reflexivity|]; split; [split; discriminate|];
            split; [intros [|[|[|i]]] Hi; cbn; rewrite ?H1, ?H4, ?H7; auto; lia | lia]).
  all: try (exists 3%nat; split; [reflexivity|]; split; [split; discriminate|];
            split; [intros [|[|[|i]]] Hi; cbn; rewrite ?H1, ?H4, ?H7; auto; lia
                   | intros _; cbn; now rewrite H7]).
  all: try (exists 2%nat; split; [reflexivity|]; split; [split; discriminate|];
            split; [intros [|[|[|i]]] Hi; cbn; rewrite ?H1, ?H4, ?H7; auto; lia
                   | intros _; cbn; now rewrite H4]).
  all: try (exists 1%nat; split; [reflexivity|]; split; [split; discriminate|];
            split; [intros [|[|[|i]]] Hi; cbn; rewrite ?H1, ?H4, ?H7; auto; lia
                   | intros _; cbn; now rewrite H1]).
  all: exists 0%nat; split; [reflexivity|]; split; [tauto|]; split; [intros; lia|lia].
Qed.

(** The strategies are called at most once each, in the order API,
    browser, fan-out: the API for half the limit once the callback has
    returned at 0.1, the browser for half the limit once it has returned
    at 0.4, the fan-out for a quarter of the limit once it has returned at
    0.7 and the first two have found less than half the limit. *)
Theorem strategies_called_in_order ic :
  calls (log (fst (search_mentions w d q t sort limit ic cb)))
  = if callback_returns cb (1 # 10)
    then (JsonApi, limit / 2)
         :: (if callback_returns cb (4 # 10)
             then (Browser, limit / 2)
                  :: (if callback_returns cb (7 # 10)
                         && (Z.of_nat (List.length
                               (json_results w q t sort limit
                                ++ browser_results w d q t sort limit)) <? limit / 2)
                      then [(Fanout, limit / 4)] else [])
             else [])
    else [].
Proof.
  rewrite search_mentions_log. fold J B short.
  decide_run; reflexivity.
Qed.

End Events.

(** ** The progress bar of the caller *)

Lemma bar_value_checkpoints : Forall (fun f => bar_value f = Ok 20) checkpoints.
Proof.
  repeat constructor.
Qed.

(** With the callback of [execute_search], the run reports its four
    checkpoints and the bar is set to 20 at each of them: the callback
    never raises, and the bar does not move during the search. *)
Theorem progress_bar_stays_at_20 w d q t sort limit ic :
  let r := search_mentions w d q t sort limit ic (Some bar_callback) in
  progress_fractions (log (fst r)) = checkpoints
  /\ Forall (fun f => bar_value f = Ok 20) (progress_fractions (log (fst r)))
  /\ all_results (fst r) = merged_results w d q t sort limit.
Proof.
  cbn zeta.
  assert (H : progress_fractions
                (log (fst (search_mentions w d q t sort limit ic (Some bar_callback))))
              = checkpoints).
  { rewrite search_mentions_log.
    change (callback_returns (Some bar_callback) (1 # 10)) with true.
    change (callback_returns (Some bar_callback) (4 # 10)) with true.
    change (callback_returns (Some bar_callback) (7 # 10)) with true.
    cbn [andb]. destruct (_ <? _); destruct (_ || _); reflexivity. }
  split; [exact H|]. split; [rewrite H; apply bar_value_checkpoints|].
  apply search_mentions_of_merge; reflexivity.
Qed.

(* ================================================================= *)
(** ** The list returned by a completed run *)

Lemma first_seen_covers l : forall seen r,
  Forall (fun p => hashable (post_id p) = true) l -> In r l ->
  existsb (py_eq (post_id r)) seen = true
  \/ exists p, In p (first_seen seen l) /\ py_eq (post_id p) (post_id r) = true.
Proof.
  induction l as [|h rest IH]; intros seen r Hh Hr; [destruct Hr|].
  inversion Hh as [|? ? Hhead Hrest]; subst. cbn [first_seen].
  destruct Hr as [->|Hr].
  - destruct (existsb (py_eq (post_id r)) seen) eqn:E; [auto|].
    right. exists r. split; [now left|now apply py_eq_refl].
  - destruct (existsb (py_eq (post_id h)) seen) eqn:E; [now apply IH|].
    destruct (IH (post_id h :: seen) r Hrest Hr) as [H|(p & Hp & He)].
    + cbn in H. apply orb_true_iff in H as [H|H]; [|auto].
      right. exists h. split; [now left|].
      rewrite py_eq_sym; auto. rewrite Forall_forall in Hrest. auto.
    + right. exists p. split; [now right|assumption].
Qed.

Lemma slice_to_all {A} (l : list A) n :
  Z.of_nat (List.length l) <= n -> slice_to l n = l.
Proof.
  intros H. unfold slice_to. destruct (n <? 0) eqn:E; [lia|].
  apply firstn_all2. lia.
Qed.

Lemma sorted_app {A} (R : A -> A -> Prop) (a b : list A) :
  StronglySorted R (a ++ b) -> forall x y, In x a -> In y b -> R x y.
Proof.
  induction a as [|h a IH]; cbn; intros H x y Hx Hy; [destruct Hx|].
  inversion H as [|? ? Hs Hf]; subst. destruct Hx as [->|Hx].
  - rewrite Forall_forall in Hf. apply Hf. rewrite in_app_iff. auto.
  - now apply IH.
Qed.

(** When the distinct identifiers of the merge are no more than the
    limit, a completed run drops nothing but duplicates: the list
    returned is a rearrangement of the first posts of each identifier, and
    every post of the merge has a post of its identifier in the list. *)
Theorem nothing_lost_under_limit w d q t sort limit cb ic s out :
  search_body w q t sort limit cb (start d) = (s, Ok out) ->
  Z.of_nat (List.length (first_seen [] (merged_results w d q t sort limit))) <= limit ->
  snd (search_mentions w d q t sort limit ic cb) = Ok out
  /\ Permutation (first_seen [] (merged_results w d q t sort limit)) out
  /\ (forall r, In r (merged_results w d q t sort limit) ->
        exists p, In p out /\ py_eq (post_id p) (post_id r) = true).
Proof.
  intros H Hl. rewrite (search_mentions_of_body _ _ _ _ _ _ _ ic _ _ H). cbn [snd].
  destruct (search_body_completed _ _ _ _ _ _ _ _ _ H) as [_ Hfin].
  destruct (finish_inv _ _ _ Hfin) as (Hh & _ & sorted & k & Hs & -> & _).
  pose proof (sort_newest_first_perm _ _ Hs) as Hperm.
  rewrite slice_to_all by (rewrite <- (Permutation_length Hperm); exact Hl).
  split; [reflexivity|]. split; [exact Hperm|].
  intros r Hr. destruct (first_seen_covers _ [] r Hh Hr) as [H0|(p & Hp & He)];
    [discriminate|].
  exists p. split; [|exact He]. eapply Permutation_in; eauto.
Qed.

(** When a completed run cuts its list at the limit, it drops the oldest
    posts: no post of the deduplicated merge that is left out is newer
    than a post returned. This is for [created_utc] values that are not
    lists or NaN. *)
Theorem truncation_drops_the_oldest w d q t sort limit cb ic s out :
  search_body w q t sort limit cb (start d) = (s, Ok out) ->
  Forall (fun p => is_list (created_utc p) = false) (all_results s) ->
  Forall (fun p => is_nan (created_utc p) = false) (all_results s) ->
  snd (search_mentions w d q t sort limit ic cb) = Ok out
  /\ forall p r, In p out -> In r (first_seen [] (all_results s)) -> ~ In r out ->
       not_older p r.
Proof.
  intros H Hkeys Hnan. rewrite (search_mentions_of_body _ _ _ _ _ _ _ ic _ _ H). cbn [snd].
  destruct (search_body_completed _ _ _ _ _ _ _ _ _ H) as [Hall Hfin]. rewrite Hall in *.
  destruct (finish_inv _ _ _ Hfin) as (Hh & _ & sorted & k & Hs & _ & ->).
  split; [reflexivity|]. intros p r Hp Hr Hout.
  assert (Hsorted : StronglySorted not_older sorted).
  { eapply sort_newest_first_sorted; [| |exact Hs].
    - rewrite Forall_forall in *. intros x Hx. apply Hkeys. eapply first_seen_incl; eauto.
    - rewrite Forall_forall in *. intros x Hx. apply Hnan. eapply first_seen_incl; eauto. }
  rewrite <- (firstn_skipn k sorted) in Hsorted.
  apply (sorted_app _ _ _ Hsorted); [assumption|].
  apply (Permutation_in _ (sort_newest_first_perm _ _ Hs)) in Hr.
  rewrite <- (firstn_skipn k sorted) in Hr. apply in_app_iff in Hr. tauto.
Qed.

(** A post of the merge whose identifier cannot be hashed (a JSON array
    or object) stops the deduplication: with a callback that returns, the
    call returns the whole merge as it is. *)
Theorem unhashable_id_returns_raw_merge w d q t sort limit cb ic p :
  callback_returns cb (1 # 10) = true -> callback_returns cb (4 # 10) = true ->
  callback_returns cb (7 # 10) = true -> callback_returns cb (9 # 10) = true ->
  In p (merged_results w d q t sort limit) -> hashable (post_id p) = false ->
  dedup [] [] (merged_results w d q t sort limit) = Raise TypeError
  /\ snd (search_mentions w d q t sort limit ic cb) = Ok (merged_results w d q t sort limit).
Proof.
  intros H1 H4 H7 H9 Hp Hh.
  assert (Hd : forall l seen u, In p l -> dedup seen u l = Raise TypeError).
  { induction l as [|r rest IH]; intros seen u Hin; [destruct Hin|]. cbn.
    unfold in_set. fold (post_id r).
    destruct (hashable (post_id r)) eqn:Hr; cbn.
    - destruct Hin as [->|Hin]; [congruence|].
      destruct (existsb _ seen); now apply IH.
    - reflexivity. }
  split; [now apply Hd|].
  destruct (search_mentions_of_merge w d q t sort limit cb ic H1 H4 H7 H9) as [_ ->].
  unfold finish. now rewrite (Hd _ [] [] Hp).
Qed.

(** ** When the sort succeeds *)

Lemma insert_newest_strings x s :
  Forall (fun p => exists k, created_utc p = VStr k) (x :: s) ->
  exists r, insert_newest x s = Ok r.
Proof.
  induction s as [|y rest IH]; cbn; intros H; eauto.
  inversion H as [|? ? [kx Hx] H']; subst. inversion H' as [|? ? [ky Hy] Hrest]; subst.
  rewrite Hx, Hy. cbn. destruct (String.ltb kx ky); eauto.
  destruct IH as [r Hr]; [constructor; eauto|]. rewrite Hr. cbn. eauto.
Qed.

Lemma sort_newest_first_strings l :
  Forall (fun p => exists k, created_utc p = VStr k) l ->
  exists s, sort_newest_first l = Ok s.
Proof.
  induction l as [|x rest IH]; cbn; intros H; eauto.
  inversion H as [|? ? Hx Hrest]; subst.
  destruct (IH Hrest) as [s Hs]. rewrite Hs. cbn.
  apply insert_newest_strings. constructor; auto.
  eapply Permutation_Forall; [eapply sort_newest_first_perm; eauto|auto].
Qed.

(** Keys that are not lists can be sorted exactly when there is at most
    one post, or every [created_utc] is a number, or every [created_utc]
    is a string; any other list makes the sort raise. *)
Theorem sort_succeeds_iff_comparable l :
  Forall (fun p => is_list (created_utc p) = false) l ->
  (is_ok (sort_newest_first l) = true
   <-> (List.length l <= 1)%nat
       \/ Forall (fun p => as_number (created_utc p) <> None) l
       \/ Forall (fun p => exists k, created_utc p = VStr k) l).
Proof.
  intros Hk. split.
  - induction l as [|x rest IH]; [cbn; auto|].
    inversion Hk as [|? ? Hx Hrest]; subst. cbn [sort_newest_first].
    destruct (sort_newest_first rest) as [s|] eqn:Hs; cbn; [|discriminate].
    specialize (IH Hrest eq_refl). pose proof (sort_newest_first_perm _ _ Hs) as Hperm.
    destruct s as [|y s'].
    { apply Permutation_sym, Permutation_nil in Hperm. subst. cbn. auto. }
    cbn. destruct (py_lt (created_utc x) (created_utc y)) as [b|] eqn:E; [|discriminate].
    intros _. right.
    assert (Hy : In y rest) by (eapply Permutation_in; [apply Permutation_sym; eauto|now left]).
    destruct (py_lt_inv _ _ _ E) as [(qx & qy & Ex & Ey & _)|[(kx & ky & Ex & Ey & _)|[Hl _]]];
      [| |congruence].
    + left. constructor; [congruence|].
      destruct IH as [IH|[IH|IH]]; [| assumption |].
      * destruct rest as [|z [|? ?]]; [destruct Hy| |cbn in IH; lia].
        destruct Hy as [->|[]]. repeat constructor. congruence.
      * rewrite Forall_forall in IH. destruct (IH y Hy) as [k Hk']. rewrite Hk' in Ey.
        discriminate.
    + right. constructor; [eauto|].
      destruct IH as [IH|[IH|IH]]; [| | assumption].
      * destruct rest as [|z [|? ?]]; [destruct Hy| |cbn in IH; lia].
        destruct Hy as [->|[]]. repeat constructor. eauto.
      * rewrite Forall_forall in IH. specialize (IH y Hy). rewrite Ey in IH.
        now contradiction IH.
  - intros [H|[H|H]].
    + destruct l as [|x [|? ?]]; [reflexivity|reflexivity|cbn in H; lia].
    + destruct (sort_newest_first_numbers l H) as [s ->]. reflexivity.
    + destruct (sort_newest_first_strings l H) as [s ->]. reflexivity.
Qed.

(** ** The posts returned *)

Lemma extract_post_data_all_fields w d p :
  _extract_post_data w (VDict d) = Ok p -> has_all_fields p = true.
Proof.
  intros H. inversion H. reflexivity.
Qed.

Lemma browser_results_all_fields w d q t sort limit p :
  In p (fst (_search_via_browser w d q t sort limit)) -> has_all_fields p = true.
Proof.
  unfold _search_via_browser.
  destruct (init_browser w d); [|intros []].
  destruct (load_page w q sort t) as [posts|]; [|intros []]. cbn [fst].
  intros H. apply extract_elements_from in H as (j & e & _ & H).
  apply browser_fields_all. now destruct (browser_post_typed _ _ _ _ H).
Qed.

(** Every post that [search_mentions] returns, on any way out, has the
    thirteen keys of a post: the caller can read each of them in every
    row. *)
Theorem returned_posts_have_all_fields w d q t sort limit cb ic out p :
  snd (search_mentions w d q t sort limit ic cb) = Ok out -> In p out ->
  has_all_fields p = true.
Proof.
  intros H Hp.
  destruct (search_mentions_incl w d q t sort limit cb ic out p H Hp) as [Hj|[Hb|Hf]].
  - apply listing_posts_fields in Hj as [r Hr]. eapply extract_post_data_all_fields; eauto.
  - now apply browser_results_all_fields in Hb.
  - unfold fanout_results, _search_multiple_subreddits in Hf.
    apply in_flat_map in Hf as (sub & _ & Hf).
    apply listing_posts_fields in Hf as [r Hr]. eapply extract_post_data_all_fields; eauto.
Qed.

Lemma nothing_lost_under_limit_witness :
  exists s out,
    search_body calm "Tesla" "week" "relevance" 6 None (start false) = (s, Ok out)
    /\ Z.of_nat (List.length
         (first_seen [] (merged_results calm false "Tesla" "week" "relevance" 6))) <= 6
    /\ Permutation (first_seen [] (merged_results calm false "Tesla" "week" "relevance" 6)) out.
Proof.
  destruct (search_body calm "Tesla" "week" "relevance" 6 None (start false)) as [s [[out|e]|b]] eqn:E;
    [|vm_compute in E; discriminate..].
  exists s, out. split; [reflexivity|].
  assert (K : Z.of_nat (List.length
                (first_seen [] (merged_results calm false "Tesla" "week" "relevance" 6))) <= 6)
    by (vm_compute; discriminate).
  split; [exact K|].
  exact (proj1 (proj2
    (nothing_lost_under_limit calm false "Tesla" "week" "relevance" 6 None false s out E K))).
Defined.

Lemma truncation_drops_the_oldest_witness :
  exists s out,
    search_body calm "Tesla" "week" "relevance" 4 None (start false) = (s, Ok out)
    /\ Forall (fun p => is_list (created_utc p) = false) (all_results s)
    /\ Forall (fun p => is_nan (created_utc p) = false) (all_results s)
    /\ forall p r, In p out -> In r (first_seen [] (all_results s)) -> ~ In r out ->
         not_older p r.
Proof.
  destruct (search_body calm "Tesla" "week" "relevance" 4 None (start false)) as [s [[out|e]|b]] eqn:E;
    [|vm_compute in E; discriminate..].
  exists s, out. split; [reflexivity|].
  assert (K : Forall (fun p => is_list (created_utc p) = false) (all_results s)).
  { vm_compute in E. inversion E; subst. repeat constructor. }
  assert (N : Forall (fun p => is_nan (created_utc p) = false) (all_results s)).
  { vm_compute in E. inversion E; subst. repeat constructor. }
  split; [exact K|]. split; [exact N|].
  exact (proj2
    (truncation_drops_the_oldest calm false "Tesla" "week" "relevance" 4 None false s out E K N)).
Defined.

Lemma unhashable_id_returns_raw_merge_witness :
  exists p,
    In p (merged_results odd_ids false "Tesla" "week" "relevance" 2)
    /\ hashable (post_id p) = false
    /\ snd (search_mentions odd_ids false "Tesla" "week" "relevance" 2 false None)
       = Ok (merged_results odd_ids false "Tesla" "week" "relevance" 2).
Proof.
  eexists. split; [left; reflexivity|]. split; [reflexivity|].
  refine (proj2 (unhashable_id_returns_raw_merge
                   odd_ids false "Tesla" "week" "relevance" 2 None false _
                   eq_refl eq_refl eq_refl eq_refl _ _)).
  - left. reflexivity.
  - reflexivity.
Defined.

Lemma sort_succeeds_iff_comparable_witness :
  Forall (fun p => is_list (created_utc p) = false)
         [[("created_utc", VInt 5)]; [("created_utc", VNone)]]
  /\ is_ok (sort_newest_first [[("created_utc", VInt 5)]; [("created_utc", VNone)]]) = false
  /\ ~ Forall (fun p => as_number (created_utc p) <> None)
         [[("created_utc", VInt 5)]; [("created_utc", VNone)]].
Proof.
  assert (K : Forall (fun p => is_list (created_utc p) = false)
                [[("created_utc", VInt 5)]; [("created_utc", VNone)]])
    by (repeat constructor).
  split; [exact K|]. split; [reflexivity|].
  intros H.
  assert (E : is_ok (sort_newest_first [[("created_utc", VInt 5)]; [("created_utc", VNone)]])
              = true)
    by (apply (proj2 (sort_succeeds_iff_comparable _ K)); right; left; exact H).
  discriminate E.
Defined.

Lemma returned_posts_have_all_fields_witness :
  exists out p,
    snd (search_mentions calm false "Tesla" "week" "relevance" 4 false None) = Ok out
    /\ In p out /\ has_all_fields p = true.
Proof.
  destruct (snd (search_mentions calm false "Tesla" "week" "relevance" 4 false None))
    as [[[|p out]|e]|b] eqn:E; [vm_compute in E; discriminate| |vm_compute in E; discriminate..].
  exists (p :: out), p. split; [reflexivity|]. split; [now left|].
  apply (returned_posts_have_all_fields calm false "Tesla" "week" "relevance" 4 None false
           (p :: out) p E).
  now left.
Defined.

(* ================================================================= *)
(** ** The text parsers on plain numbers *)

Lemma lower_plain s :
  forallb (fun c => is_digit c || Ascii.eqb c ",") (list_ascii_of_string s) = true ->
  lower s = s.
Proof.
  induction s as [|c s IH]; cbn; [reflexivity|]. intros H.
  apply andb_true_iff in H as [Hc Hs]. rewrite (IH Hs). f_equal.
  apply orb_true_iff in Hc as [Hc|Hc]; [now destruct (digit_facts c Hc) as (_ & _ & _ & _ & ?)|].
  apply Ascii.eqb_eq in Hc. subst. reflexivity.
Qed.

Lemma remove_commas_plain s :
  forallb (fun c => is_digit c || Ascii.eqb c ",") (list_ascii_of_string s) = true ->
  list_ascii_of_string (remove_char "," s) = filter is_digit (list_ascii_of_string s).
Proof.
  induction s as [|c s IH]; cbn; [reflexivity|]. intros H.
  apply andb_true_iff in H as [Hc Hs]. apply orb_true_iff in Hc as [Hc|Hc].
  - destruct (digit_facts c Hc) as (_ & _ & Hcomma & _). rewrite Hcomma, Hc. cbn.
    now rewrite (IH Hs).
  - rewrite Hc. apply Ascii.eqb_eq in Hc. subst. cbn. now apply IH.
Qed.

Lemma digits_without_k s :
  forallb is_digit (list_ascii_of_string s) = true -> contains_char "k" s = false.
Proof.
  induction s as [|c s IH]; cbn; [reflexivity|]. intros H.
  apply andb_true_iff in H as [Hc Hs].
  destruct (digit_facts c Hc) as (_ & _ & _ & Hk & _). now rewrite Hk, (IH Hs).
Qed.

Lemma filter_digits (l : list ascii) : forallb is_digit (filter is_digit l) = true.
Proof.
  apply forallb_forall. intros c Hc. now apply filter_In in Hc.
Qed.

(** A score written with digits and commas only is read exactly: the
    commas are dropped and the digits give the number. The bound on the
    digits is that of [int] on strings. *)
Theorem parse_score_digits_and_commas score_text :
  forallb (fun c => is_digit c || Ascii.eqb c ",") (list_ascii_of_string score_text) = true ->
  existsb is_digit (list_ascii_of_string score_text) = true ->
  (List.length (filter is_digit (list_ascii_of_string score_text)) <= 4300)%nat ->
  _parse_score score_text
  = Ok (digits_value (filter is_digit (list_ascii_of_string score_text))).
Proof.
  intros Hp Hd Hlen. unfold _parse_score, parse_score_body.
  rewrite (lower_plain _ Hp).
  pose proof (remove_commas_plain _ Hp) as Hr.
  pose proof (filter_digits (list_ascii_of_string score_text)) as Hf.
  rewrite <- Hr in Hf, Hlen |- *.
  rewrite (digits_without_k _ Hf), py_int_digits; [| |exact Hf].
  { replace (_ <=? _) with true; [reflexivity|].
    symmetry. apply Z.leb_le. unfold max_str_digits.
    apply Nat2Z.inj_le in Hlen. exact Hlen. }
  rewrite Hr. apply existsb_exists in Hd as (c & Hc & Hcd).
  intros E. assert (Hin : In c (filter is_digit (list_ascii_of_string score_text)))
    by (apply filter_In; auto).
  rewrite E in Hin. destruct Hin.
Qed.

Lemma parse_score_digits_and_commas_witness :
  existsb is_digit (list_ascii_of_string "12,345") = true
  /\ _parse_score "12,345" = Ok 12345.
Proof.
  split; [reflexivity|].
  apply (parse_score_digits_and_commas "12,345"); [reflexivity|reflexivity|].
  cbn. lia.
Defined.

(** ** The comment count *)

Lemma remove_char_incl c s a :
  In a (list_ascii_of_string (remove_char c s)) -> In a (list_ascii_of_string s).
Proof.
  induction s as [|b s IH]; cbn; [tauto|].
  destruct (Ascii.eqb b c); cbn; intuition.
Qed.

Lemma drop_non_digits_none l :
  (forall c, In c l -> is_digit c = false) -> drop_non_digits l = [].
Proof.
  induction l as [|c l IH]; cbn; intros H; [reflexivity|].
  rewrite (H c) by auto. apply IH. auto.
Qed.

Lemma drop_non_digits_app pre l :
  (forall c, In c pre -> is_digit c = false) ->
  drop_non_digits (pre ++ l) = drop_non_digits l.
Proof.
  induction pre as [|c pre IH]; cbn; intros H; [reflexivity|].
  rewrite (H c) by auto. apply IH. auto.
Qed.

Lemma span_digits_app ds rest :
  forallb is_digit ds = true ->
  match rest with c :: _ => is_digit c = false | [] => True end ->
  span_digits (ds ++ rest) = (ds, rest).
Proof.
  induction ds as [|c ds IH]; cbn; intros Hd Hr.
  - destruct rest as [|c rest]; [reflexivity|]. cbn. now rewrite Hr.
  - apply andb_true_iff in Hd as [Hc Hd]. rewrite Hc, (IH Hd Hr). reflexivity.
Qed.

(** A text without a digit has no comment count: the parser returns 0. *)
Theorem comment_count_without_digits comment_text :
  (forall c, In c (list_ascii_of_string comment_text) -> is_digit c = false) ->
  _parse_comment_count comment_text = Ok 0.
Proof.
  intros H. unfold _parse_comment_count. rewrite drop_non_digits_none; [reflexivity|].
  intros c Hc. apply H. eapply remove_char_incl; eauto.
Qed.

Lemma comment_count_without_digits_witness :
  _parse_comment_count "comment, share" = Ok 0.
Proof.
  apply comment_count_without_digits.
  intros c Hc. cbn in Hc.
  repeat (destruct Hc as [<-|Hc]; [reflexivity|]). destruct Hc.
Defined.

(** The comment count is the first run of digits of the text once its
    commas are dropped: what comes before the run has no digit, and the
    run ends with the text or at a character that is no digit. The bound
    on the digits is that of [int] on strings. *)
Theorem comment_count_is_first_number comment_text before digits after :
  list_ascii_of_string (remove_char "," comment_text) = (before ++ digits ++ after)%list ->
  (forall c, In c before -> is_digit c = false) ->
  digits <> [] -> forallb is_digit digits = true ->
  match after with c :: _ => is_digit c = false | [] => True end ->
  (List.length digits <= 4300)%nat ->
  _parse_comment_count comment_text = Ok (digits_value digits).
Proof.
  intros Ht Hb Hn Hd Ha Hlen. unfold _parse_comment_count.
  rewrite Ht, (drop_non_digits_app _ _ Hb).
  assert (E : drop_non_digits (digits ++ after) = (digits ++ after)%list).
  { destruct digits as [|c ds]; [congruence|]. cbn in Hd |- *.
    apply andb_true_iff in Hd as [Hc _]. now rewrite Hc. }
  rewrite E, (span_digits_app _ _ Hd Ha). cbn [fst].
  destruct digits as [|c ds]; [congruence|].
  rewrite py_int_digits; rewrite list_ascii_of_string_of_list_ascii; [|discriminate|exact Hd].
  replace (_ <=? _) with true; [reflexivity|].
  symmetry. apply Z.leb_le. unfold max_str_digits.
  apply Nat2Z.inj_le in Hlen. exact Hlen.
Qed.

Lemma comment_count_is_first_number_witness :
  list_ascii_of_string (remove_char "," "View 1,204 comments (3 new)")
  = (list_ascii_of_string "View " ++ list_ascii_of_string "1204"
     ++ list_ascii_of_string " comments (3 new)")%list
  /\ _parse_comment_count "View 1,204 comments (3 new)" = Ok 1204.
Proof.
  split; [reflexivity|].
  apply (comment_count_is_first_number "View 1,204 comments (3 new)"
           (list_ascii_of_string "View ") (list_ascii_of_string "1204")
           (list_ascii_of_string " comments (3 new)")).
  - reflexivity.
  - intros c Hc. cbn in Hc. repeat (destruct Hc as [<-|Hc]; [reflexivity|]). destruct Hc.
  - discriminate.
  - reflexivity.
  - reflexivity.
  - cbn. lia.
Defined.

(** ** The subreddit of a browser post *)

Lemma remove_r_slash_cons a s :
  a <> "r"%char \/ match s with String "/" _ => False | _ => True end ->
  remove_r_slash (String a s) = String a (remove_r_slash s).
Proof.
  destruct a as [[] [] [] [] [] [] [] []]; try reflexivity.
  destruct s as [|b s]; [reflexivity|].
  destruct b as [[] [] [] [] [] [] [] []]; try reflexivity.
  intros [H|[]]. congruence.
Qed.

Lemma remove_r_slash_plain name :
  contains_char "/" name = false -> remove_r_slash name = name.
Proof.
  induction name as [|a s IH]; [reflexivity|]. cbn [contains_char]. intros H.
  apply orb_false_iff in H as [_ Hs]. rewrite remove_r_slash_cons, (IH Hs); [reflexivity|].
  right. destruct s as [|b s]; [exact I|]. cbn [contains_char] in Hs.
  apply orb_false_iff in Hs as [Hb _].
  destruct b as [[] [] [] [] [] [] [] []]; try exact I. discriminate Hb.
Qed.

(** A container that names its subreddit as [r/] followed by a name
    without a slash gives a post whose [subreddit] is that name. *)
Theorem browser_subreddit_without_prefix w i e name p :
  subreddit_name e = Some ("r/" ++ name) -> contains_char "/" name = false ->
  _extract_browser_post_data w i e = Some p ->
  get p "subreddit" = VStr name.
Proof.
  intros Hs Hn. unfold _extract_browser_post_data. rewrite Hs.
  destruct (h3 e), (vote_count e) as [votes|], (comment_count e) as [comments|],
    (title_link e); try discriminate.
  destruct (_parse_score votes), (_parse_comment_count comments); try discriminate.
  intros H. inversion H; subst. unfold get, get_default.
  cbn [lookup String.eqb Ascii.eqb Bool.eqb].
  change (remove_r_slash ("r/" ++ name)) with (remove_r_slash name).
  now rewrite (remove_r_slash_plain name Hn).
Qed.

Lemma browser_subreddit_without_prefix_witness :
  exists p,
    _extract_browser_post_data rendered 0
      (container (Some "Tesla recall") (Some "32.3k") (Some "1,204 comments")) = Some p
    /\ get p "subreddit" = VStr "technology".
Proof.
  eexists. split; [reflexivity|].
  apply (browser_subreddit_without_prefix rendered 0
           (container (Some "Tesla recall") (Some "32.3k") (Some "1,204 comments"))
           "technology" _ eq_refl eq_refl eq_refl).
Defined.

(** ** Scores with a [k] suffix, below a million *)

Lemma whole_k_all : forallb whole_k_ok (seq 0 (Z.to_nat 1000)) = true.
Proof.
  vm_compute. reflexivity.
Qed.

Lemma decimal_k_all : forallb decimal_k_ok (seq 0 (Z.to_nat 1000)) = true.
Proof.
  vm_compute. reflexivity.
Qed.

(** A whole number below 1000 followed by [k] is read as that many
    thousands, exactly. *)
Theorem whole_k_scores_exact n :
  0 <= n < 1000 -> _parse_score (decimal n ++ "k") = Ok (1000 * n).
Proof.
  intros H. pose proof whole_k_all as A. rewrite forallb_forall in A.
  specialize (A (Z.to_nat n)). unfold whole_k_ok in A. rewrite Z2Nat.id in A by lia.
  destruct (_parse_score (decimal n ++ "k")) as [v|e].
  - f_equal. apply Z.eqb_eq. apply A. apply in_seq. lia.
  - assert (false = true) by (apply A; apply in_seq; lia). discriminate.
Qed.

Lemma whole_k_scores_exact_witness : _parse_score ("12" ++ "k") = Ok 12000.
Proof.
  apply (whole_k_scores_exact 12). lia.
Defined.

(** A number below 100 written with one decimal and followed by [k] is
    read as that many thousands or as one less, never further off. *)
Theorem one_decimal_k_scores_within_one a b :
  0 <= a < 100 -> 0 <= b <= 9 ->
  exists v,
    _parse_score (decimal a ++ "." ++ decimal b ++ "k") = Ok v
    /\ 1000 * a + 100 * b - 1 <= v <= 1000 * a + 100 * b.
Proof.
  intros Ha Hb. pose proof decimal_k_all as A. rewrite forallb_forall in A.
  specialize (A (Z.to_nat (10 * a + b))). unfold decimal_k_ok in A.
  rewrite Z2Nat.id in A by lia.
  assert (Hq : (10 * a + b) / 10 = a) by (symmetry; apply (Z.div_unique_pos _ 10 a b); lia).
  assert (Hr : (10 * a + b) mod 10 = b) by (symmetry; apply (Z.mod_unique_pos _ 10 a b); lia).
  cbn zeta in A. rewrite Hq, Hr in A.
  destruct (_parse_score (decimal a ++ "." ++ decimal b ++ "k")) as [v|e].
  - exists v. split; [reflexivity|].
    assert (E : (1000 * a + 100 * b - 1 <=? v) && (v <=? 1000 * a + 100 * b) = true)
      by (apply A; apply in_seq; lia).
    apply andb_true_iff in E as [E1 E2]. apply Z.leb_le in E1, E2. lia.
  - assert (false = true) by (apply A; apply in_seq; lia). discriminate.
Qed.

Lemma one_decimal_k_scores_within_one_witness :
  exists v, _parse_score ("32" ++ "." ++ "3" ++ "k") = Ok v /\ 32299 <= v <= 32300.
Proof.
  apply (one_decimal_k_scores_within_one 32 3); lia.
Defined.
